(** * Daily Note Mover: the date-format compiler, the date parser and the
      two relocation passes of [main.js], embedded in Rocq.

    Strings are sequences of code units below 256 ([string]); every
    character the compiled patterns accept is ASCII.  Numbers produced by
    [parseInt] are exact integers ([Z]): the segments of a matched file
    name hold at most a few digits, far below the precision of a double.
    Calendar dates are local dates; time of day and time zones are not
    part of the model. *)

From Stdlib Require Import String Ascii ZArith NArith List Bool Lia.
From Stdlib Require Import DecimalString.
Import ListNotations.

Open Scope string_scope.
Open Scope Z_scope.

(** ** JavaScript primitives used by the plugin *)

Module JS.

(** What the locals [day], [month] and [year] of [parseDate] can hold:
    [undefined], the results of [parseInt] ([NaN] or an integer), and an
    object (a property inherited from [Object.prototype]). *)
Inductive value : Type :=
| Undefined
| NaN
| Num (z : Z)
| Obj.

(** A value read from the persisted settings file. *)
Inductive stored : Type :=
| SUndefined
| SNull
| SBool (b : bool)
| SNum (z : Z)
| SStr (s : string)
| SObj.

Definition truthy (v : value) : bool :=
  match v with
  | Undefined | NaN => false
  | Num z => negb (z =? 0)
  | Obj => true
  end.

Definition stored_truthy (v : stored) : bool :=
  match v with
  | SUndefined | SNull => false
  | SBool b => b
  | SNum z => negb (z =? 0)
  | SStr s => negb (s =? "")%string
  | SObj => true
  end.

(** [ToNumber]: [None] is NaN.  An object or function converts to NaN. *)
Definition ToNumber (v : value) : option Z :=
  match v with
  | Num z => Some z
  | Undefined | NaN | Obj => None
  end.

(** [a < b] and [a > b] against an integer literal: false on NaN. *)
Definition lt (a : value) (b : Z) : bool :=
  match ToNumber a with Some x => x <? b | None => false end.

Definition gt (a : value) (b : Z) : bool :=
  match ToNumber a with Some x => x >? b | None => false end.

Definition add (a : Z) (b : value) : value :=
  match ToNumber b with Some x => Num (a + x) | None => NaN end.

Definition code (c : ascii) : N := N_of_ascii c.

Definition isDigit (c : ascii) : bool :=
  ((48 <=? code c) && (code c <=? 57))%N.

Definition isUpper (c : ascii) : bool :=
  ((65 <=? code c) && (code c <=? 90))%N.

Definition isLower (c : ascii) : bool :=
  ((97 <=? code c) && (code c <=? 122))%N.

Definition isLetter (c : ascii) : bool := isUpper c || isLower c.

(** White space skipped by [parseInt], among code units below 256. *)
Definition isWhiteSpace (c : ascii) : bool :=
  ((9 <=? code c) && (code c <=? 13) || (code c =? 32) || (code c =? 160))%N.

(** [String.prototype.toLowerCase] on code units below 256. *)
Definition lowerChar (c : ascii) : ascii :=
  if (isUpper c
      || ((192 <=? code c) && (code c <=? 222) && negb (code c =? 215)))%N
  then ascii_of_N (code c + 32)
  else c.

Fixpoint toLowerCase (s : string) : string :=
  match s with
  | EmptyString => EmptyString
  | String c s' => String (lowerChar c) (toLowerCase s')
  end.

(** [s.startsWith(p)] *)
Definition startsWith (s p : string) : bool := prefix p s.

Fixpoint drop (n : nat) (s : string) : string :=
  match n, s with
  | O, _ => s
  | S n', String _ s' => drop n' s'
  | S _, EmptyString => EmptyString
  end.

(** [s.replace(pat, rep)] with a string pattern: the first occurrence only. *)
Fixpoint replace (pat rep s : string) : string :=
  if prefix pat s then rep ++ drop (String.length pat) s
  else match s with
       | EmptyString => EmptyString
       | String c s' => String c (replace pat rep s')
       end.

Definition cons_head (c : ascii) (l : list string) : list string :=
  match l with
  | [] => [String c ""]
  | h :: t => String c h :: t
  end.

(** Splitting on a non-empty separator: [skip] counts the code units of a
    separator occurrence still to be passed over. *)
Fixpoint split_at (sep : string) (skip : nat) (s : string) : list string :=
  match s with
  | EmptyString => [""]
  | String c s' =>
      match skip with
      | S k => split_at sep k s'
      | O =>
          if prefix sep s
          then "" :: split_at sep (String.length sep - 1) s'
          else cons_head c (split_at sep 0 s')
      end
  end.

Fixpoint chars (s : string) : list string :=
  match s with
  | EmptyString => []
  | String c s' => String c "" :: chars s'
  end.

(** [s.split(sep)]: an empty separator splits into code units. *)
Definition split (s sep : string) : list string :=
  match sep with
  | EmptyString => chars s
  | _ => split_at sep 0 s
  end.

(** [arr.filter(s => s)] on strings: the non-empty ones. *)
Definition nonEmpty (s : string) : bool := negb (s =? "")%string.

Definition digitVal (c : ascii) : Z := Z.of_N (code c) - 48.

Fixpoint parse_digits (acc : option Z) (s : string) : option Z :=
  match s with
  | EmptyString => acc
  | String c s' =>
      if isDigit c
      then parse_digits
             (Some (10 * match acc with Some a => a | None => 0 end
                    + digitVal c)) s'
      else acc
  end.

Fixpoint trimStart (s : string) : string :=
  match s with
  | EmptyString => EmptyString
  | String c s' => if isWhiteSpace c then trimStart s' else s
  end.

(** [parseInt(s, 10)]: leading white space, an optional sign, then the
    longest run of decimal digits; NaN when there is none. *)
Definition parseInt (s : string) : value :=
  let t := trimStart s in
  let '(sign, body) :=
    match t with
    | String "-"%char r => (-1, r)
    | String "+"%char r => (1, r)
    | _ => (1, t)
    end in
  match parse_digits None body with
  | Some n => Num (sign * n)
  | None => NaN
  end.

(** [String(n)] for an integer. *)
Definition toString (n : Z) : string := NilZero.string_of_int (Z.to_int n).

Fixpoint repeat0 (n : nat) : string :=
  match n with
  | O => ""
  | S k => String "0"%char (repeat0 k)
  end.

(** [s.padStart(width, '0')] *)
Definition padStart0 (width : nat) (s : string) : string :=
  repeat0 (width - String.length s) ++ s.

(** Own properties of [Object.prototype]: what a lookup in an object
    literal finds besides the literal's own keys. *)
Definition Object_prototype : list string :=
  [ "constructor"; "__defineGetter__"; "__defineSetter__"; "hasOwnProperty";
    "__lookupGetter__"; "__lookupSetter__"; "isPrototypeOf";
    "propertyIsEnumerable"; "toString"; "valueOf"; "__proto__";
    "toLocaleString" ].

Definition inherited (key : string) : bool :=
  existsb (String.eqb key) Object_prototype.

(** *** Regular expressions

    The patterns the plugin builds are anchored sequences of counted
    character classes and literals. *)
Inductive atom : Type :=
| Digit                (* \d *)
| Letter               (* [A-Za-z] *)
| Lit (c : ascii).     (* a literal or escaped character *)

Inductive item : Type :=
| Exactly (n : nat) (a : atom)    (* a{n} *)
| AtLeast (n : nat) (a : atom).   (* a{n,} *)

Definition atom_ok (a : atom) (c : ascii) : bool :=
  match a with
  | Digit => isDigit c
  | Letter => isLetter c
  | Lit l => Ascii.eqb l c
  end.

(** Consume exactly [n] characters of class [a]. *)
Fixpoint eat (n : nat) (a : atom) (s : string) : option string :=
  match n with
  | O => Some s
  | S k =>
      match s with
      | String c s' => if atom_ok a c then eat k a s' else None
      | EmptyString => None
      end
  end.

(** Zero or more further characters of class [a], then the continuation:
    every split is tried, as a backtracking matcher does. *)
Fixpoint more (a : atom) (k : string -> bool) (s : string) : bool :=
  k s ||
  match s with
  | String c s' => atom_ok a c && more a k s'
  | EmptyString => false
  end.

(** [^items$] against the whole input. *)
Fixpoint matches (r : list item) (s : string) : bool :=
  match r with
  | [] => (s =? "")%string
  | Exactly n a :: r' =>
      match eat n a s with
      | Some s' => matches r' s'
      | None => false
      end
  | AtLeast n a :: r' =>
      match eat n a s with
      | Some s' => more a (matches r') s'
      | None => false
      end
  end.

Definition literal (s : string) : list item :=
  map (fun c => Exactly 1 (Lit c)) (list_ascii_of_string s).

End JS.

(** ** The plugin *)

Import JS.

(** *** Settings *)

Record Settings : Type := {
  targetFolder : string;
  showSummaryNotification : bool;
  dateFormat : stored;
  useYearMonthSubfolders : bool
}.

Definition default_dateFormat : string := "DD-MM-YYYY".

(** The [settings] field initialiser of the plugin class. *)
Definition default_settings : Settings := {|
  targetFolder := "Old Daily Notes";
  showSummaryNotification := true;
  dateFormat := SStr default_dateFormat;
  useYearMonthSubfolders := false
|}.

Definition set_dateFormat (st : Settings) (f : stored) : Settings := {|
  targetFolder := targetFolder st;
  showSummaryNotification := showSummaryNotification st;
  dateFormat := f;
  useYearMonthSubfolders := useYearMonthSubfolders st
|}.

(** [s] has an occurrence of [sub]. *)
Fixpoint includes (s sub : string) : bool :=
  prefix sub s ||
  match s with
  | EmptyString => false
  | String _ s' => includes s' sub
  end.

(** [isValidDateFormat]: the truthiness of its result.  The unanchored
    pattern [(DD|MM|YYYY|YY|MMM|MMMM)] finds a match exactly when one of the
    alternatives occurs in the string. *)
Definition isValidDateFormat (format : stored) : bool :=
  match format with
  | SStr f =>
      if (f =? "")%string then false
      else existsb (includes f) ["DD"; "MM"; "YYYY"; "YY"; "MMM"; "MMMM"]
  | _ => false
  end.

(** What [data.json] holds: any subset of the four keys.  [None] for the
    whole file is a missing file or a failed read, which leaves the
    defaults in place. *)
Record Persisted : Type := {
  p_targetFolder : option string;
  p_showSummaryNotification : option bool;
  p_dateFormat : option stored;
  p_useYearMonthSubfolders : option bool
}.

Definition or_default {A} (o : option A) (d : A) : A :=
  match o with Some a => a | None => d end.

(** [loadSettings]: [Object.assign({}, this.settings, await this.loadData())] *)
Definition loadSettings (st : Settings) (data : option Persisted) : Settings :=
  match data with
  | None => st
  | Some p => {|
      targetFolder := or_default (p_targetFolder p) (targetFolder st);
      showSummaryNotification :=
        or_default (p_showSummaryNotification p) (showSummaryNotification st);
      dateFormat := or_default (p_dateFormat p) (dateFormat st);
      useYearMonthSubfolders :=
        or_default (p_useYearMonthSubfolders p) (useYearMonthSubfolders st)
    |}
  end.

(** The settings [onload] leaves behind: loaded, then the date format
    validated and replaced by the default when invalid. *)
Definition onload (data : option Persisted) : Settings :=
  let st := loadSettings default_settings data in
  if negb (isValidDateFormat (dateFormat st))
  then set_dateFormat st (SStr default_dateFormat)
  else st.

(** The [onChange] handler of the date-format text field:
    [settings.dateFormat = value || 'DD-MM-YYYY']. *)
Definition onChange_dateFormat (st : Settings) (value : string) : Settings :=
  set_dateFormat st
    (SStr (if nonEmpty value then value else default_dateFormat)).

(** The [onChange] handler of the target-folder text field. *)
Definition onChange_targetFolder (st : Settings) (value : string) : Settings := {|
  targetFolder := if nonEmpty value then value else "Old Daily Notes";
  showSummaryNotification := showSummaryNotification st;
  dateFormat := dateFormat st;
  useYearMonthSubfolders := useYearMonthSubfolders st
|}.

(** *** The format compiler: [getDateFormatInfo] *)

Inductive fieldType : Type := day | month | year.

(** An entry found by [tokens[part]]: the pattern source appended to
    [regexStr], the pattern it denotes, and the field type. *)
Record tokenInfo : Type := {
  re_src : string;
  re : list item;
  ty : option fieldType
}.

(** The [tokens] table.  A key inherited from [Object.prototype] is found
    as well: the value is truthy, its [.regex] and [.type] are [undefined],
    so the text [undefined] is appended to the pattern. *)
Definition tokens (part : string) : option tokenInfo :=
  if (part =? "DD")%string then
    Some {| re_src := "\d{2}"; re := [Exactly 2 Digit]; ty := Some day |}
  else if (part =? "MM")%string then
    Some {| re_src := "\d{2}"; re := [Exactly 2 Digit]; ty := Some month |}
  else if (part =? "YYYY")%string then
    Some {| re_src := "\d{4}"; re := [Exactly 4 Digit]; ty := Some year |}
  else if (part =? "YY")%string then
    Some {| re_src := "\d{2}"; re := [Exactly 2 Digit]; ty := Some year |}
  else if (part =? "MMM")%string then
    Some {| re_src := "[A-Za-z]{3}"; re := [Exactly 3 Letter]; ty := Some month |}
  else if (part =? "MMMM")%string then
    Some {| re_src := "[A-Za-z]{4,}"; re := [AtLeast 4 Letter]; ty := Some month |}
  else if inherited part then
    Some {| re_src := "undefined"; re := literal "undefined"; ty := None |}
  else None.

Definition monthTable : list (string * Z) :=
  [ ("jan", 1); ("feb", 2); ("mar", 3); ("apr", 4); ("may", 5); ("jun", 6);
    ("jul", 7); ("aug", 8); ("sep", 9); ("oct", 10); ("nov", 11); ("dec", 12);
    ("january", 1); ("february", 2); ("march", 3); ("april", 4); ("may", 5);
    ("june", 6); ("july", 7); ("august", 8); ("september", 9);
    ("october", 10); ("november", 11); ("december", 12) ].

Fixpoint assoc (key : string) (l : list (string * Z)) : option Z :=
  match l with
  | [] => None
  | (k, v) :: l' => if (k =? key)%string then Some v else assoc key l'
  end.

(** [monthNames[key]] *)
Definition monthNames (key : string) : value :=
  match assoc key monthTable with
  | Some n => Num n
  | None => if inherited key then Obj else Undefined
  end.

Definition isSep (c : ascii) : bool := (c =? "-")%char || (c =? "/")%char.

(** [format.split(/([-\/])/)]: the text between separators and, because of
    the capture group, the separators themselves. *)
Fixpoint split_separators (s : string) : list string :=
  match s with
  | EmptyString => [""]
  | String c s' =>
      if isSep c
      then "" :: String c "" :: split_separators s'
      else cons_head c (split_separators s')
  end.

(** [part.match(/[-\/]/)] *)
Fixpoint has_separator (s : string) : bool :=
  match s with
  | EmptyString => false
  | String c s' => isSep c || has_separator s'
  end.

(** [part.replace(/[-\/]/g, '\\$&')] *)
Fixpoint escape_separators (s : string) : string :=
  match s with
  | EmptyString => EmptyString
  | String c s' =>
      if isSep c
      then String "\"%char (String c (escape_separators s'))
      else String c (escape_separators s')
  end.

Record part : Type := { token : string; type : option fieldType }.

(** What the closure [parseDate] captures, with the pattern both as the
    source text [regexStr] and as the expression [new RegExp] builds. *)
Record FormatInfo : Type := {
  regexStr : string;
  regex : list item;
  parts : list part;
  separator : string
}.

(** One iteration of the loop over [formatParts]. *)
Definition add_part (acc : FormatInfo) (p : string) : FormatInfo :=
  match tokens p with
  | Some t => {|
      regexStr := regexStr acc ++ re_src t;
      regex := (regex acc ++ re t)%list;
      parts := (parts acc ++ [{| token := p; type := ty t |}])%list;
      separator := separator acc
    |}
  | None =>
      if has_separator p then {|
        regexStr := regexStr acc ++ escape_separators p;
        regex := (regex acc ++ literal p)%list;
        parts := parts acc;
        separator := p
      |}
      else acc
  end.

(** The body of the [try] block for a string [format]. *)
Definition compile (format : string) : FormatInfo :=
  let acc :=
    fold_left add_part (split_separators format)
      {| regexStr := "^"; regex := []; parts := []; separator := "" |} in
  {| regexStr := regexStr acc ++ "\.md$";
     regex := (regex acc ++ literal ".md")%list;
     parts := parts acc;
     separator := separator acc |}.

Inductive outcome (A : Type) : Type :=
| Ok (a : A)
| Throws.
Arguments Ok {A} a.
Arguments Throws {A}.

(** [getDateFormatInfo()]: it takes no parameter, so the argument of the
    call in the [catch] block is dropped and that call compiles
    [settings.dateFormat] again.  [depth] is the room left on the call
    stack; when it runs out the engine throws a [RangeError], which the
    pending [catch] blocks, already entered, do not handle.  A truthy
    [format] that is not a string has no [split] method: the [try] block
    throws a [TypeError]. *)
Fixpoint getDateFormatInfo (depth : nat) (st : Settings) : outcome FormatInfo :=
  match depth with
  | O => Throws
  | S d =>
      let format :=
        if stored_truthy (dateFormat st) then dateFormat st
        else SStr default_dateFormat in
      match format with
      | SStr f => Ok (compile f)
      | _ => getDateFormatInfo d st
      end
  end.

(** *** Calendar dates *)

Record Date : Type := { getFullYear : Z; getMonth : Z; getDate : Z }.

Definition isLeap (y : Z) : bool :=
  (y mod 4 =? 0) && (negb (y mod 100 =? 0) || (y mod 400 =? 0)).

(** Days of month [m], counted from 0 as [Date] does. *)
Definition daysInMonth (y m : Z) : Z :=
  if m =? 1 then (if isLeap y then 29 else 28)
  else if (m =? 3) || (m =? 5) || (m =? 8) || (m =? 10) then 30
  else 31.

(** [new Date(year, month, day)], [None] being an invalid date (a NaN
    argument).  A day past the end of the month is carried into the next
    month, which is all of the constructor's normalisation that can occur
    for the arguments [parseDate] passes (a year of four digits, a month
    from 0 to 11, a day from 1 to 31).

    This is the constructor's calendar arithmetic, which is the whole of
    it in a time zone whose local calendar has every day (UTC is one).
    The constructor works in local time: [new_Date_in] below adds the
    zone, and [parseDate_in] is the parser in a given zone. *)
Definition new_Date (y m d : value) : option Date :=
  match ToNumber y, ToNumber m, ToNumber d with
  | Some y, Some m, Some d =>
      if d <=? daysInMonth y m then
        Some {| getFullYear := y; getMonth := m; getDate := d |}
      else if m =? 11 then
        Some {| getFullYear := y + 1; getMonth := 0;
                getDate := d - daysInMonth y m |}
      else
        Some {| getFullYear := y; getMonth := m + 1;
                getDate := d - daysInMonth y m |}
  | _, _, _ => None
  end.

(** [a !== b] for a number [a] and a local [b]. *)
Definition strict_ne (a : Z) (b : value) : bool :=
  match b with
  | Num z => negb (a =? z)
  | _ => true
  end.

(** *** The parser: [parseDate] *)

Record Fields : Type := { f_day : value; f_month : value; f_year : value }.

(** The body of the loop over [parts] for one part and its segment;
    [None] is [return null]. *)
Definition parse_field (p : part) (segment : string) (f : Fields)
  : option Fields :=
  match type p with
  | Some day =>
      let d := parseInt segment in
      if lt d 1 || gt d 31 then None
      else Some {| f_day := d; f_month := f_month f; f_year := f_year f |}
  | Some month =>
      if (token p =? "MMM")%string || (token p =? "MMMM")%string then
        let m := monthNames (toLowerCase segment) in
        if negb (truthy m) then None
        else Some {| f_day := f_day f; f_month := m; f_year := f_year f |}
      else
        let m := parseInt segment in
        if lt m 1 || gt m 12 then None
        else Some {| f_day := f_day f; f_month := m; f_year := f_year f |}
  | Some year =>
      let y := parseInt segment in
      let y := if (token p =? "YY")%string
               then (if lt y 50 then add 2000 y else add 1900 y)
               else y in
      if lt y 1000 || gt y 9999 then None
      else Some {| f_day := f_day f; f_month := f_month f; f_year := y |}
  | None => Some f
  end.

(** The loop over [parts], reading [segments[offset]]. *)
Fixpoint parse_parts (ps : list part) (segments : list string) (offset : nat)
  (f : Fields) : option Fields :=
  match ps with
  | [] => Some f
  | p :: ps' =>
      match nth_error segments offset with
      | None => None
      | Some segment =>
          if negb (nonEmpty segment) then None
          else match parse_field p segment f with
               | None => None
               | Some f' => parse_parts ps' segments (S offset) f'
               end
      end
  end.

Definition parseDate (info : FormatInfo) (dateStr : string) : option Date :=
  let cleanStr := replace ".md" "" dateStr in
  if negb (matches (regex info) (cleanStr ++ ".md")) then None
  else
    let segments := filter nonEmpty (split cleanStr (separator info)) in
    match parse_parts (parts info) segments 0
            {| f_day := Undefined; f_month := Undefined; f_year := Undefined |}
    with
    | None => None
    | Some f =>
        if negb (truthy (f_day f)) || negb (truthy (f_month f))
           || negb (truthy (f_year f))
        then None
        else
          match new_Date (f_year f) (add (-1) (f_month f)) (f_day f) with
          | None => None
          | Some date =>
              if strict_ne (getFullYear date) (f_year f)
                 || strict_ne (getMonth date + 1) (f_month f)
                 || strict_ne (getDate date) (f_day f)
              then None
              else Some date
          end
    end.

Definition ymd (d : Date) : Z * Z * Z :=
  (getFullYear d, getMonth d + 1, getDate d).

Definition parse (format dateStr : string) : option (Z * Z * Z) :=
  option_map ymd (parseDate (compile format) dateStr).

(** *** The vault

    The host's file table and folder set.  [vault.rename] fails exactly on
    a conflict, when the destination path exists; [createFolder] is only
    called for a path that does not exist.  A file keeps its [name] when
    it is renamed: every destination ends in [/] followed by that name. *)

Record TFile : Type := { name : string; path : string; extension : string }.

Record Vault : Type := { files : list TFile; folders : list string }.

Inductive event : Type :=
| CreatedFolder (p : string)
| Renamed (f : TFile) (newPath : string)
| RenameFailed (f : TFile) (newPath : string)
| InvalidDate (f : TFile).

Record Counts : Type := { found : nat; moved : nat; skipped : nat }.

(** The state threaded through a pass: the files already visited, the
    folders, the counters and what was done. *)
Record Pass : Type := {
  visited : list TFile;
  dirs : list string;
  counts : Counts;
  log : list event
}.

(** [adapter.exists(p)] over the folders and the files [fs]. *)
Definition has (ds : list string) (p : string) : bool :=
  existsb (String.eqb p) ds.

Definition exists_path (ds : list string) (fs : list TFile) (p : string) : bool :=
  has ds p || existsb (fun f => (p =? path f)%string) fs.

(** [if (!(await exists(p))) await createFolder(p)] *)
Definition ensure_folder (fs : list TFile) (p : string)
  (dl : list string * list event) : list string * list event :=
  if exists_path (fst dl) fs p then dl
  else ((fst dl ++ [p])%list, (snd dl ++ [CreatedFolder p])%list).

Definition set_path (f : TFile) (p : string) : TFile :=
  {| name := name f; path := p; extension := extension f |}.

(** The date as the passes print it:
    [`${y}-${String(m + 1).padStart(2, '0')}-${String(d).padStart(2, '0')}`] *)
Definition iso (d : Date) : string :=
  toString (getFullYear d) ++ "-"
  ++ padStart0 2 (toString (getMonth d + 1)) ++ "-"
  ++ padStart0 2 (toString (getDate d)).

(** The destination of a note and the folders made sure of on the way. *)
Definition destination (st : Settings) (fs : list TFile) (fileDate : Date)
  (file : TFile) (dl : list string * list event)
  : string * (list string * list event) :=
  if useYearMonthSubfolders st then
    let year := getFullYear fileDate in
    let month := padStart0 2 (toString (getMonth fileDate + 1)) in
    let yearFolder := targetFolder st ++ "/" ++ toString year in
    let monthFolder := yearFolder ++ "/" ++ month in
    (monthFolder ++ "/" ++ name file,
     ensure_folder fs monthFolder (ensure_folder fs yearFolder dl))
  else (targetFolder st ++ "/" ++ name file, dl).

Definition bump_found (c : Counts) : Counts :=
  {| found := S (found c); moved := moved c; skipped := skipped c |}.
Definition bump_moved (c : Counts) : Counts :=
  {| found := found c; moved := S (moved c); skipped := skipped c |}.
Definition bump_skipped (c : Counts) : Counts :=
  {| found := found c; moved := moved c; skipped := S (skipped c) |}.

(** [vault.rename(file, newPath)] inside its [try]: on success the file
    carries its new path. *)
Definition try_rename (fs : list TFile) (file : TFile) (newPath : string)
  (ds : list string) (c : Counts) (l : list event) (s : Pass) : Pass :=
  if exists_path ds fs newPath then
    {| visited := (visited s ++ [file])%list; dirs := ds; counts := c;
       log := (l ++ [RenameFailed file newPath])%list |}
  else
    {| visited := (visited s ++ [set_path file newPath])%list; dirs := ds;
       counts := bump_moved c;
       log := (l ++ [Renamed file newPath])%list |}.

Definition pass_over (s : Pass) (file : TFile) (c : Counts)
  (ds : list string) (l : list event) : Pass :=
  {| visited := (visited s ++ [file])%list; dirs := ds; counts := c; log := l |}.

(** The body of the loop of [moveOldDailyNotes] for [file]; [rest] are
    the files still to come, [aside] the files the loop does not visit. *)
Definition archive_file (st : Settings) (info : FormatInfo) (todayISO : string)
  (aside rest : list TFile) (s : Pass) (file : TFile) : Pass :=
  let fs := (visited s ++ file :: rest ++ aside)%list in
  if (extension file =? "md")%string && matches (regex info) (name file) then
    let c := bump_found (counts s) in
    match parseDate info (replace ".md" "" (name file)) with
    | None =>
        pass_over s file (bump_skipped c) (dirs s)
          (log s ++ [InvalidDate file])%list
    | Some fileDate =>
        if negb (iso fileDate =? todayISO)%string then
          let '(newPath, (ds, l)) :=
            destination st fs fileDate file (dirs s, log s) in
          if negb (startsWith (path file) (targetFolder st ++ "/")) then
            try_rename fs file newPath ds c l s
          else pass_over s file (bump_skipped c) ds l
        else pass_over s file (bump_skipped c) (dirs s) (log s)
    end
  else pass_over s file (counts s) (dirs s) (log s).

(** The body of the loop of [relocateOldNotes]. *)
Definition relocate_file (st : Settings) (info : FormatInfo)
  (aside rest : list TFile) (s : Pass) (file : TFile) : Pass :=
  let fs := (visited s ++ file :: rest ++ aside)%list in
  if (extension file =? "md")%string && matches (regex info) (name file) then
    match parseDate info (replace ".md" "" (name file)) with
    | None =>
        pass_over s file (counts s) (dirs s) (log s ++ [InvalidDate file])%list
    | Some fileDate =>
        let '(newPath, (ds, l)) :=
          destination st fs fileDate file (dirs s, log s) in
        try_rename fs file newPath ds (counts s) l s
    end
  else pass_over s file (counts s) (dirs s) (log s).

Fixpoint for_each (body : list TFile -> Pass -> TFile -> Pass)
  (todo : list TFile) (s : Pass) : Pass :=
  match todo with
  | [] => s
  | file :: rest => for_each body rest (body rest s file)
  end.

Record Report : Type := {
  vault : Vault;
  tally : Counts;
  events : list event
}.

Definition no_counts : Counts := {| found := 0; moved := 0; skipped := 0 |}.

Definition start (v : Vault) (target : string) : Pass :=
  let '(ds, l) := ensure_folder (files v) target (folders v, []) in
  {| visited := []; dirs := ds; counts := no_counts; log := l |}.

Definition finish (aside : list TFile) (s : Pass) : Report :=
  {| vault := {| files := (visited s ++ aside)%list; folders := dirs s |};
     tally := counts s;
     events := log s |}.

(** [moveOldDailyNotes]: an exception of [getDateFormatInfo] is caught by
    the pass's own [try] and nothing is touched. *)
Definition moveOldDailyNotes (depth : nat) (st : Settings) (today : Date)
  (v : Vault) : Report :=
  match getDateFormatInfo depth st with
  | Throws => {| vault := v; tally := no_counts; events := [] |}
  | Ok info =>
      finish []
        (for_each (archive_file st info (iso today) [])
           (files v) (start v (targetFolder st)))
  end.

Definition oldFolder : string := "Old Daily Notes".

Definition in_oldFolder (f : TFile) : bool :=
  startsWith (path f) (oldFolder ++ "/").

(** [relocateOldNotes]: the pass over the files under the legacy folder.
    Only [moved] is counted there. *)
Definition relocateOldNotes (depth : nat) (st : Settings) (v : Vault) : Report :=
  match getDateFormatInfo depth st with
  | Throws => {| vault := v; tally := no_counts; events := [] |}
  | Ok info =>
      let aside := filter (fun f => negb (in_oldFolder f)) (files v) in
      finish aside
        (for_each (relocate_file st info aside)
           (filter in_oldFolder (files v)) (start v (targetFolder st)))
  end.

(** ** Notions the statements are written with *)

(** A file [f] is moved by a pass when the pass renamed it. *)
Definition moved_in (r : Report) (f : TFile) : Prop :=
  exists newPath, In (Renamed f newPath) (events r).

(** The date parsed from the name of [f] is the calendar day [today]. *)
Definition dated_today (info : FormatInfo) (today : Date) (f : TFile) : Prop :=
  exists d, parseDate info (replace ".md" "" (name f)) = Some d
            /\ ymd d = ymd today.

(** The century rule of the [YY] token, as the specification words it. *)
Definition resolve_century (v : Z) : Z :=
  if v <? 50 then 2000 + v else 1900 + v.

(** A calendar date: month [m] from 1 to 12, day within the month. *)
Definition valid_date (y m d : Z) : Prop :=
  1 <= m <= 12 /\ 1 <= d <= daysInMonth y (m - 1).

(** A note in folder [dir] (empty, or ending in a slash). *)
Definition note (dir nm : string) : TFile :=
  {| name := nm; path := dir ++ nm; extension := "md" |}.

Definition archive_settings (format : string) (sub : bool) : Settings := {|
  targetFolder := "Archive";
  showSummaryNotification := true;
  dateFormat := SStr format;
  useYearMonthSubfolders := sub
|}.

(** The segments [parseDate] reads its fields from. *)
Definition segments (info : FormatInfo) (dateStr : string) : list string :=
  filter nonEmpty (split (replace ".md" "" dateStr) (separator info)).

(** What the loop of [parseDate] can leave in its three locals. *)
Definition in_range (lo hi : Z) (allow_obj : bool) (v : value) : Prop :=
  match v with
  | Undefined | NaN => True
  | Num n => lo <= n <= hi
  | Obj => allow_obj = true
  end.

Definition fields_ok (f : Fields) : Prop :=
  in_range 1 31 false (f_day f)
  /\ in_range 1 12 true (f_month f)
  /\ in_range 1000 9999 false (f_year f).

(** The folder creation a pass logs for [p] when the folder set is [ds]. *)
Definition made (ds : list string) (p : string) : list event :=
  if has ds p then [] else [CreatedFolder p].

(** What one part of the split format adds to the pattern and to [parts]. *)
Definition part_items (p : string) : list item :=
  match tokens p with
  | Some t => re t
  | None => if has_separator p then literal p else []
  end.

Definition part_parts (p : string) : list part :=
  match tokens p with
  | Some t => [{| token := p; type := ty t |}]
  | None => []
  end.

Definition part_separator (s p : string) : string :=
  match tokens p with
  | Some _ => s
  | None => if has_separator p then p else s
  end.

(** Every character of [s] satisfies [p]. *)
Fixpoint all (p : ascii -> bool) (s : string) : bool :=
  match s with
  | EmptyString => true
  | String c s' => p c && all p s'
  end.

(** An atom that accepts no separator character. *)
Definition text_atom (a : atom) : Prop :=
  forall c, atom_ok a c = true -> isSep c = false.

Definition text_item (i : item) : Prop :=
  match i with
  | Exactly _ a | AtLeast _ a => text_atom a
  end.

(** The folders [destination] makes sure of and the path it returns; both
    depend on the note and its date only. *)
Definition dest_folders (st : Settings) (d : Date) : list string :=
  if useYearMonthSubfolders st then
    let yearFolder := targetFolder st ++ "/" ++ toString (getFullYear d) in
    [yearFolder; yearFolder ++ "/" ++ padStart0 2 (toString (getMonth d + 1))]
  else [].

Definition dest_path (st : Settings) (d : Date) (file : TFile) : string :=
  if useYearMonthSubfolders st then
    ((targetFolder st ++ "/" ++ toString (getFullYear d))
     ++ "/" ++ padStart0 2 (toString (getMonth d + 1)))
    ++ "/" ++ name file
  else targetFolder st ++ "/" ++ name file.

(** The date of a note the archive pass would try to move, were it
    outside the target folder. *)
Definition eligible (info : FormatInfo) (todayISO : string) (file : TFile)
  : option Date :=
  if (extension file =? "md")%string && matches (regex info) (name file) then
    match parseDate info (replace ".md" "" (name file)) with
    | Some d => if negb (iso d =? todayISO)%string then Some d else None
    | None => None
    end
  else None.

(** A note the archive pass leaves where it is: its folders exist, and it
    is under the target folder or its destination is taken. *)
Definition settled (st : Settings) (info : FormatInfo) (todayISO : string)
  (ds : list string) (fs : list TFile) (file : TFile) : Prop :=
  forall d, eligible info todayISO file = Some d ->
    (forall p, In p (dest_folders st d) -> exists_path ds fs p = true)
    /\ (startsWith (path file) (targetFolder st ++ "/") = true
        \/ exists_path ds fs (dest_path st d file) = true).

(** ** The token grammar and date strings, as the specification words them *)

Inductive tok : Type := DD | MM | YYYY | YY | MMM | MMMM.

Definition tok_name (t : tok) : string :=
  match t with
  | DD => "DD" | MM => "MM" | YYYY => "YYYY" | YY => "YY"
  | MMM => "MMM" | MMMM => "MMMM"
  end.

Definition tok_type (t : tok) : fieldType :=
  match t with
  | DD => day
  | MM | MMM | MMMM => month
  | YYYY | YY => year
  end.

Definition tok_item (t : tok) : item :=
  match t with
  | DD | MM | YY => Exactly 2 Digit
  | YYYY => Exactly 4 Digit
  | MMM => Exactly 3 Letter
  | MMMM => AtLeast 4 Letter
  end.

Definition tok_part (t : tok) : part :=
  {| token := tok_name t; type := Some (tok_type t) |}.

(** A format string: tokens joined by one separator character. *)
Definition format_of (sep : ascii) (toks : list tok) : string :=
  String.concat (String sep "") (map tok_name toks).

Definition has_field (ty : fieldType) (toks : list tok) : Prop :=
  exists t, In t toks /\ tok_type t = ty.

Definition digit_char (k : Z) : ascii := ascii_of_N (48 + Z.to_N k).

Definition two_digits (n : Z) : string :=
  String (digit_char (n / 10)) (String (digit_char (n mod 10)) "").

Definition four_digits (n : Z) : string :=
  String (digit_char (n / 1000))
    (String (digit_char (n / 100 mod 10)) (two_digits (n mod 100))).

Definition month_abbr (m : Z) : string :=
  nth (Z.to_nat (m - 1))
    ["jan"; "feb"; "mar"; "apr"; "may"; "jun";
     "jul"; "aug"; "sep"; "oct"; "nov"; "dec"] "".

Definition month_full (m : Z) : string :=
  nth (Z.to_nat (m - 1))
    ["january"; "february"; "march"; "april"; "may"; "june"; "july";
     "august"; "september"; "october"; "november"; "december"] "".

(** [seg] is the date [(y, m, d)] written for token [t]: numbers in full
    width, month names in any letter case. *)
Definition renders (date : Z * Z * Z) (t : tok) (seg : string) : Prop :=
  let '(y, m, d) := date in
  match t with
  | DD => seg = two_digits d
  | MM => seg = two_digits m
  | YYYY => 0 <= y <= 9999 /\ seg = four_digits y
  | YY => seg = two_digits (y mod 100)
  | MMM => toLowerCase seg = month_abbr m
  | MMMM => toLowerCase seg = month_full m
  end.

(** [s] is the date written in the format [toks] with separator [sep]. *)
Definition date_string (sep : ascii) (toks : list tok) (date : Z * Z * Z)
  (s : string) : Prop :=
  exists segs, Forall2 (renders date) toks segs
               /\ s = String.concat (String sep "") segs.

(** The pattern of a format of tokens joined by [sep]. *)
Fixpoint pattern_of (sep : ascii) (toks : list tok) : list item :=
  match toks with
  | [] => []
  | [t] => [tok_item t]
  | t :: ts => tok_item t :: Exactly 1 (Lit sep) :: pattern_of sep ts
  end.

(** A segment that an item accepts as a whole. *)
Definition fits (i : item) (seg : string) : Prop :=
  match i with
  | Exactly n a => String.length seg = n /\ all (atom_ok a) seg = true
  | AtLeast n a => (n <= String.length seg)%nat /\ all (atom_ok a) seg = true
  end.

Definition isText (c : ascii) : bool := isDigit c || isLetter c.

Definition field_set (date : Z * Z * Z) (ty : fieldType) (f : Fields) : Prop :=
  let '(y, m, d) := date in
  match ty with
  | day => f_day f = Num d
  | month => f_month f = Num m
  | year => f_year f = Num y
  end.

Definition set_field (date : Z * Z * Z) (ty : fieldType) (f : Fields) : Fields :=
  let '(y, m, d) := date in
  match ty with
  | day => {| f_day := Num d; f_month := f_month f; f_year := f_year f |}
  | month => {| f_day := f_day f; f_month := Num m; f_year := f_year f |}
  | year => {| f_day := f_day f; f_month := f_month f; f_year := Num y |}
  end.

Definition no_char (c : ascii) (x : ascii) : bool := negb (Ascii.eqb x c).

(** The locals after the loop has run over the tokens [toks]. *)
Definition fields_after (date : Z * Z * Z) (toks : list tok) (f : Fields)
  : Fields :=
  fold_left (fun acc t => set_field date (tok_type t) acc) toks f.

(** The restrictions under which a date is read back from its string:
    a year of four digits, within 1950..2049 when written with [YY], and,
    for [MMMM], a month whose name has at least four letters. *)
Definition readable (date : Z * Z * Z) (t : tok) : Prop :=
  let '(y, m, d) := date in
  match t with
  | YY => 1950 <= y <= 2049
  | MMMM => m <> 5
  | _ => True
  end.

(** ** Persistence and further notions *)

From Stdlib Require DecimalPos DecimalZ.

(** [saveSettings]: [saveData(this.settings)] writes the four keys to
    [data.json]; a key whose value is [undefined] is left out by the JSON
    serialisation. *)
Definition saveSettings (st : Settings) : Persisted := {|
  p_targetFolder := Some (targetFolder st);
  p_showSummaryNotification := Some (showSummaryNotification st);
  p_dateFormat := match dateFormat st with
                  | SUndefined => None
                  | v => Some v
                  end;
  p_useYearMonthSubfolders := Some (useYearMonthSubfolders st)
|}.

(** The last separator character of a format, as a string; empty when
    there is none. *)
Fixpoint last_separator (acc s : string) : string :=
  match s with
  | EmptyString => acc
  | String c s' => last_separator (if isSep c then String c "" else acc) s'
  end.

Definition is_renamed (e : event) : bool :=
  match e with Renamed _ _ => true | _ => false end.

Definition is_failed (e : event) : bool :=
  match e with RenameFailed _ _ => true | _ => false end.

Definition count (p : event -> bool) (l : list event) : nat :=
  List.length (filter p l).

(** An atom that does not accept the dot. *)
Definition plain_atom (a : atom) : Prop :=
  forall c, atom_ok a c = true -> no_char "." c = true.

Definition plain_item (i : item) : Prop :=
  match i with
  | Exactly _ a | AtLeast _ a => plain_atom a
  end.

(** The local of [parseDate] that holds the field of type [ty]. *)
Definition get_field (ty : fieldType) (f : Fields) : value :=
  match ty with
  | day => f_day f
  | month => f_month f
  | year => f_year f
  end.

(** A part of the split format: text without separator, or one separator
    character. *)
Definition split_part (p : string) : Prop :=
  has_separator p = false \/ exists c, isSep c = true /\ p = String c "".

(** ** Local time

    [new Date(year, month, day)] is local midnight of that day, and the
    getters read the local calendar back.  Where the zone's clock jumped
    over that midnight by a day or more, the local day does not exist:
    the constructor resolves the time with the offset in force before the
    jump, and the getters then report the day after the gap (in
    Pacific/Apia, which had no 30 December 2011,
    [new Date(2011, 11, 30).getDate()] is 31).  A jump of less than a day
    (daylight saving at midnight) moves the hour only.

    A zone is given by the local days it skipped: [skipped y m d] for day
    [d] of month [m], counted from 0, of year [y]. *)

Definition TimeZone : Type := Z -> Z -> Z -> bool.

(** A zone whose calendar has every day. *)
Definition every_day : TimeZone := fun _ _ _ => false.

(** Pacific/Apia: the day lost on crossing the date line. *)
Definition Pacific_Apia : TimeZone :=
  fun y m d => (y =? 2011) && (m =? 11) && (d =? 30).

Definition next_day (date : Date) : Date :=
  let y := getFullYear date in
  let m := getMonth date in
  let d := getDate date in
  if d + 1 <=? daysInMonth y m then
    {| getFullYear := y; getMonth := m; getDate := d + 1 |}
  else if m =? 11 then
    {| getFullYear := y + 1; getMonth := 0; getDate := 1 |}
  else
    {| getFullYear := y; getMonth := m + 1; getDate := 1 |}.

(** [new Date(year, month, day)] in the zone: the calendar arithmetic
    first, then the gap.  For a skipped day the getters report the day
    after it; [parseDate] compares them with what it asked for, so for
    its result only their being another day matters. *)
Definition new_Date_in (skipped : TimeZone) (y m d : value) : option Date :=
  match new_Date y m d with
  | Some date =>
      if skipped (getFullYear date) (getMonth date) (getDate date)
      then Some (next_day date)
      else Some date
  | None => None
  end.

(** [parseDate] in the zone: the same function body, its [new Date] being
    the zone's. *)
Definition parseDate_in (skipped : TimeZone) (info : FormatInfo)
  (dateStr : string) : option Date :=
  let cleanStr := replace ".md" "" dateStr in
  if negb (matches (regex info) (cleanStr ++ ".md")) then None
  else
    let segments := filter nonEmpty (split cleanStr (separator info)) in
    match parse_parts (parts info) segments 0
            {| f_day := Undefined; f_month := Undefined; f_year := Undefined |}
    with
    | None => None
    | Some f =>
        if negb (truthy (f_day f)) || negb (truthy (f_month f))
           || negb (truthy (f_year f))
        then None
        else
          match new_Date_in skipped (f_year f) (add (-1) (f_month f))
                  (f_day f) with
          | None => None
          | Some date =>
              if strict_ne (getFullYear date) (f_year f)
                 || strict_ne (getMonth date + 1) (f_month f)
                 || strict_ne (getDate date) (f_day f)
              then None
              else Some date
          end
    end.

Definition parse_in (skipped : TimeZone) (format dateStr : string)
  : option (Z * Z * Z) :=
  option_map ymd (parseDate_in skipped (compile format) dateStr).

(** ** The settings the plugin can hold

    The two toggles of the settings tab store the switch's value. *)
Definition onChange_showSummaryNotification (st : Settings) (value : bool)
  : Settings := {|
  targetFolder := targetFolder st;
  showSummaryNotification := value;
  dateFormat := dateFormat st;
  useYearMonthSubfolders := useYearMonthSubfolders st
|}.

Definition onChange_useYearMonthSubfolders (st : Settings) (value : bool)
  : Settings := {|
  targetFolder := targetFolder st;
  showSummaryNotification := showSummaryNotification st;
  dateFormat := dateFormat st;
  useYearMonthSubfolders := value
|}.

(** The settings object is written in [onload] and by the four handlers
    of the settings tab, nowhere else; the passes and the settings tab
    are registered by [onload] after it has validated the format. *)
Inductive reachable : Settings -> Prop :=
| after_onload data : reachable (onload data)
| after_dateFormat st value :
    reachable st -> reachable (onChange_dateFormat st value)
| after_targetFolder st value :
    reachable st -> reachable (onChange_targetFolder st value)
| after_showSummaryNotification st value :
    reachable st -> reachable (onChange_showSummaryNotification st value)
| after_useYearMonthSubfolders st value :
    reachable st -> reachable (onChange_useYearMonthSubfolders st value).
(** ** Generic facts about the passes *)

#[local] Arguments Z.add : simpl never.
#[local] Arguments Z.sub : simpl never.
#[local] Arguments Z.mul : simpl never.
#[local] Arguments Z.leb : simpl never.
#[local] Arguments Z.ltb : simpl never.
#[local] Arguments Z.gtb : simpl never.
#[local] Arguments Z.eqb : simpl never.

Section PassInvariant.

Variable body : list TFile -> Pass -> TFile -> Pass.
Variable P : Pass -> Prop.
Hypothesis body_keeps : forall rest s f, P s -> P (body rest s f).

Lemma for_each_invariant todo : forall s, P s -> P (for_each body todo s).
Proof.
  induction todo as [|f rest IH]; intros s Hs; simpl; auto.
Qed.

End PassInvariant.

Lemma ensure_folder_renamed fs p dl f q :
  In (Renamed f q) (snd (ensure_folder fs p dl)) -> In (Renamed f q) (snd dl).
Proof.
  unfold ensure_folder. destruct (exists_path (fst dl) fs p); simpl; auto.
  intros H. apply in_app_or in H. destruct H as [H|[H|[]]]; auto. discriminate.
Qed.

Lemma destination_renamed st fs d file dl f q :
  In (Renamed f q) (snd (snd (destination st fs d file dl))) ->
  In (Renamed f q) (snd dl).
Proof.
  unfold destination. destruct (useYearMonthSubfolders st); simpl; auto.
  intros H. do 2 apply ensure_folder_renamed in H. exact H.
Qed.

Lemma start_no_rename v target f q : ~ In (Renamed f q) (log (start v target)).
Proof.
  unfold start.
  destruct (ensure_folder (files v) target (folders v, [])) as [ds l] eqn:E.
  simpl. intros H.
  assert (H' : In (Renamed f q) (snd (ensure_folder (files v) target (folders v, [])))).
  { rewrite E. exact H. }
  apply ensure_folder_renamed in H'. exact H'.
Qed.

Lemma same_day_same_iso d today : ymd d = ymd today -> iso d = iso today.
Proof.
  unfold ymd, iso. intros H. injection H as Hy Hm Hd.
  rewrite Hy, Hm, Hd. reflexivity.
Qed.

(** Every rename the archive pass issues is for a note whose printed date
    differs from today's. *)
Lemma archive_file_renames st info todayISO aside rest s file f q :
  In (Renamed f q) (log (archive_file st info todayISO aside rest s file)) ->
  In (Renamed f q) (log s)
  \/ (f = file
      /\ startsWith (path file) (targetFolder st ++ "/") = false
      /\ exists d, parseDate info (replace ".md" "" (name file)) = Some d
                   /\ iso d <> todayISO).
Proof.
  unfold archive_file.
  destruct ((extension file =? "md")%string && matches (regex info) (name file));
    [|simpl; auto].
  destruct (parseDate info (replace ".md" "" (name file))) as [d|] eqn:Hp.
  2:{ simpl. intros H. apply in_app_or in H.
      destruct H as [H|[H|[]]]; auto; discriminate. }
  destruct (iso d =? todayISO)%string eqn:Hiso; simpl; auto.
  destruct (destination st _ d file (dirs s, log s)) as [newPath [ds l]] eqn:Hd.
  assert (Hl : forall f q, In (Renamed f q) l -> In (Renamed f q) (log s)).
  { intros f' q' H.
    change l with (snd (snd (newPath, (ds, l)))) in H. rewrite <- Hd in H.
    apply destination_renamed in H. exact H. }
  destruct (startsWith (path file) (targetFolder st ++ "/")) eqn:Hs; simpl; auto.
  unfold try_rename. destruct (exists_path ds _ newPath); simpl; intros H;
    apply in_app_or in H; destruct H as [H|[H|[]]]; auto; try discriminate.
  injection H as -> ->. right. repeat split; auto.
  exists d. split; auto. apply String.eqb_neq. exact Hiso.
Qed.

(** ** C4: two-digit years *)

Lemma digit_cases c :
  isDigit c = true ->
  In c ["0"; "1"; "2"; "3"; "4"; "5"; "6"; "7"; "8"; "9"]%char.
Proof.
  destruct c as [[] [] [] [] [] [] [] []]; vm_compute; intros H;
    try discriminate; tauto.
Qed.

(** C4.  A segment of two digits with value [v] read under the token [YY]
    sets the year to [2000 + v] when [v < 50] and to [1900 + v] otherwise,
    and that year passes the range check 1000..9999; so [20], [99], [49],
    [50] give 2020, 1999, 2049, 1950. *)
Theorem two_digit_year_resolution (a b : ascii) (f : Fields) :
  isDigit a = true -> isDigit b = true ->
  let v := 10 * digitVal a + digitVal b in
  parse_field {| token := "YY"; type := Some year |} (String a (String b "")) f
  = Some {| f_day := f_day f; f_month := f_month f;
            f_year := Num (resolve_century v) |}
  /\ 1000 <= resolve_century v <= 9999
  /\ parse "DD-MM-YY" "15-07-20" = Some (2020, 7, 15)
  /\ parse "DD-MM-YY" "15-07-99" = Some (1999, 7, 15)
  /\ parse "DD-MM-YY" "15-07-49" = Some (2049, 7, 15)
  /\ parse "DD-MM-YY" "15-07-50" = Some (1950, 7, 15).
Proof.
  intros Ha Hb.
  apply digit_cases in Ha. apply digit_cases in Hb.
  simpl in Ha, Hb.
  repeat (destruct Ha as [<-|Ha]; [|]); try contradiction;
    repeat (destruct Hb as [<-|Hb]; [|]); try contradiction;
    (split; [reflexivity|]); (split; [vm_compute; split; discriminate|]);
    repeat split; reflexivity.
Qed.

Lemma two_digit_year_resolution_witness :
  parse_field {| token := "YY"; type := Some year |} "49"
    {| f_day := Undefined; f_month := Undefined; f_year := Undefined |}
  = Some {| f_day := Undefined; f_month := Undefined; f_year := Num 2049 |}.
Proof.
  exact (proj1 (two_digit_year_resolution "4" "9"
                  {| f_day := Undefined; f_month := Undefined;
                     f_year := Undefined |} eq_refl eq_refl)).
Defined.

(** ** C1: today's note *)

(** C1 (amended).  In the whole-vault archive pass, for every date format,
    subfolder mode and vault, a file whose parsed date is today's calendar
    day is never moved. *)
Theorem archive_never_moves_today depth st today v info f :
  getDateFormatInfo depth st = Ok info ->
  dated_today info today f ->
  ~ moved_in (moveOldDailyNotes depth st today v) f.
Proof.
  intros Hinfo [d [Hd Hday]] [q Hq].
  unfold moveOldDailyNotes in Hq. rewrite Hinfo in Hq. simpl in Hq.
  revert f q Hq d Hd Hday.
  apply (for_each_invariant (archive_file st info (iso today) [])
           (fun s => forall f q, In (Renamed f q) (log s) ->
                     forall d, parseDate info (replace ".md" "" (name f)) = Some d ->
                               ymd d = ymd today -> False)).
  - intros rest s file IH f q Hq d Hd Hday.
    apply archive_file_renames in Hq.
    destruct Hq as [Hq|[-> [_ [d' [Hd' Hne]]]]].
    + eapply IH; eauto.
    + rewrite Hd in Hd'. injection Hd' as <-.
      apply Hne, same_day_same_iso, Hday.
  - intros f q Hq. exfalso. eapply start_no_rename. exact Hq.
Qed.

Lemma archive_never_moves_today_witness :
  ~ moved_in
      (moveOldDailyNotes 1 (archive_settings "DD-MM-YYYY" true)
         {| getFullYear := 2026; getMonth := 10; getDate := 2 |}
         {| files := [note "" "02-11-2026.md"]; folders := [] |})
      (note "" "02-11-2026.md").
Proof.
  apply (archive_never_moves_today 1 (archive_settings "DD-MM-YYYY" true)
           {| getFullYear := 2026; getMonth := 10; getDate := 2 |}
           {| files := [note "" "02-11-2026.md"]; folders := [] |}
           (compile "DD-MM-YYYY") (note "" "02-11-2026.md")).
  - reflexivity.
  - exists {| getFullYear := 2026; getMonth := 10; getDate := 2 |}.
    split; reflexivity.
Defined.

(** C1 as stated fails for the legacy-folder pass: with today being
    2 November 2026, the note [Old Daily Notes/02-11-2026.md] is dated
    today and [relocateOldNotes], which consults no clock, moves it. *)
Lemma relocate_moves_today_note :
  let today := {| getFullYear := 2026; getMonth := 10; getDate := 2 |} in
  let f := note "Old Daily Notes/" "02-11-2026.md" in
  let v := {| files := [f]; folders := ["Old Daily Notes"] |} in
  dated_today (compile "DD-MM-YYYY") today f
  /\ getDateFormatInfo 1 (archive_settings "DD-MM-YYYY" false)
     = Ok (compile "DD-MM-YYYY")
  /\ moved_in (relocateOldNotes 1 (archive_settings "DD-MM-YYYY" false) v) f.
Proof.
  repeat split.
  - exists {| getFullYear := 2026; getMonth := 10; getDate := 2 |}.
    split; reflexivity.
  - exists "Archive/02-11-2026.md". vm_compute. auto.
Qed.

(** ** The [try] and [catch] blocks of the compiler *)

(** For a string format the [try] block of [getDateFormatInfo] cannot
    throw: every pattern it assembles is well formed. *)
Lemma getDateFormatInfo_string depth st f :
  dateFormat st = SStr f ->
  getDateFormatInfo (S depth) st
  = Ok (compile (if (f =? "")%string then default_dateFormat else f)).
Proof.
  intros H. simpl. rewrite H. simpl.
  destruct (f =? "")%string; reflexivity.
Qed.

(** The [catch] block, were it entered.  Only a truthy format that is not
    a string makes the [try] block throw.  With the number 5 as the date
    format the [catch] block compiles the same settings again: whatever
    room the call stack has, the call ends in an exception and never
    yields the artifacts of [DD-MM-YYYY]. *)
Lemma fallback_recompiles_same_format :
  forall depth,
    getDateFormatInfo depth (set_dateFormat default_settings (SNum 5)) = Throws
    /\ getDateFormatInfo depth (set_dateFormat default_settings (SNum 5))
       <> Ok (compile default_dateFormat).
Proof.
  intros depth.
  assert (H : getDateFormatInfo depth (set_dateFormat default_settings (SNum 5))
              = Throws).
  { induction depth as [|d IH]; [reflexivity|]. simpl. exact IH. }
  rewrite H. split; [reflexivity|discriminate].
Qed.

(** ** C2: validation of the date format *)

(** What [onload] establishes: the date format of the settings it leaves is
    a string with a recognized token, the default when the stored one was
    not. *)
Lemma onload_validates data :
  isValidDateFormat (dateFormat (onload data)) = true
  /\ (isValidDateFormat (dateFormat (loadSettings default_settings data)) = false ->
      dateFormat (onload data) = SStr default_dateFormat).
Proof.
  unfold onload.
  destruct (isValidDateFormat (dateFormat (loadSettings default_settings data)))
    eqn:E; simpl.
  - split; [exact E|discriminate].
  - split; reflexivity.
Qed.

(** C2 (the code at the failing input).  After [onload], typing [hello]
    into the date-format field leaves a format without any recognized
    token in the settings, and the next matching operation compiles
    [hello], not the default. *)
Theorem edited_format_is_not_validated :
  let st := onChange_dateFormat (onload None) "hello" in
  dateFormat st = SStr "hello"
  /\ isValidDateFormat (dateFormat st) = false
  /\ getDateFormatInfo 1 st = Ok (compile "hello")
  /\ regexStr (compile "hello") = "^\.md$"
  /\ regexStr (compile default_dateFormat) = "^\d{2}\-\d{2}\-\d{4}\.md$".
Proof.
  repeat split; reflexivity.
Qed.

(** ** C5: what the parser rejects *)

Lemma parseDate_no_match info s :
  matches (regex info) (replace ".md" "" s ++ ".md") = false ->
  parseDate info s = None.
Proof.
  intros H. unfold parseDate. rewrite H. reflexivity.
Qed.

Lemma parse_parts_rejects ps : forall segs off f i p seg,
  nth_error ps i = Some p ->
  nth_error segs (off + i) = Some seg ->
  (forall f0, parse_field p seg f0 = None) ->
  parse_parts ps segs off f = None.
Proof.
  induction ps as [|p0 ps IH]; intros segs off f i p seg Hp Hseg Hnone.
  - destruct i; discriminate.
  - destruct i as [|i]; simpl in Hp.
    + injection Hp as ->. rewrite Nat.add_0_r in Hseg. simpl. rewrite Hseg.
      destruct (nonEmpty seg); simpl; auto. rewrite Hnone. reflexivity.
    + simpl. destruct (nth_error segs off) as [s0|]; auto.
      destruct (negb (nonEmpty s0)); auto.
      destruct (parse_field p0 s0 f) as [f'|]; auto.
      apply (IH segs (S off) f' i p seg); auto.
      rewrite <- Hseg. f_equal. lia.
Qed.

(** A field the loop body rejects makes [parseDate] return null. *)
Lemma parseDate_rejects_field info s i p seg :
  nth_error (parts info) i = Some p ->
  nth_error (segments info s) i = Some seg ->
  (forall f0, parse_field p seg f0 = None) ->
  parseDate info s = None.
Proof.
  intros Hp Hseg Hnone. unfold parseDate.
  destruct (negb (matches (regex info) (replace ".md" "" s ++ ".md"))); auto.
  fold (segments info s).
  rewrite (parse_parts_rejects (parts info) (segments info s) 0 _ i p seg);
    auto.
Qed.

Lemma day_out_of_range p seg n :
  type p = Some day -> parseInt seg = Num n -> n < 1 \/ 31 < n ->
  forall f0, parse_field p seg f0 = None.
Proof.
  intros Ht Hn Hr f0. unfold parse_field. rewrite Ht, Hn.
  unfold lt, gt. simpl.
  destruct Hr; [replace (n <? 1) with true by (symmetry; apply Z.ltb_lt; lia)
               |replace (n >? 31) with true
                  by (symmetry; apply Z.gtb_lt; lia)];
    rewrite ?orb_true_r; reflexivity.
Qed.

Lemma month_out_of_range p seg n :
  type p = Some month ->
  (token p =? "MMM")%string = false -> (token p =? "MMMM")%string = false ->
  parseInt seg = Num n -> n < 1 \/ 12 < n ->
  forall f0, parse_field p seg f0 = None.
Proof.
  intros Ht H3 H4 Hn Hr f0. unfold parse_field. rewrite Ht, H3, H4, Hn.
  unfold lt, gt. simpl.
  destruct Hr; [replace (n <? 1) with true by (symmetry; apply Z.ltb_lt; lia)
               |replace (n >? 12) with true
                  by (symmetry; apply Z.gtb_lt; lia)];
    rewrite ?orb_true_r; reflexivity.
Qed.

Lemma year_out_of_range p seg n :
  type p = Some year -> parseInt seg = Num n ->
  (let y := if (token p =? "YY")%string then resolve_century n else n in
   y < 1000 \/ 9999 < y) ->
  forall f0, parse_field p seg f0 = None.
Proof.
  intros Ht Hn Hr f0. unfold parse_field. rewrite Ht, Hn.
  unfold resolve_century in Hr. simpl in Hr.
  destruct (token p =? "YY")%string; unfold lt, gt, add; simpl.
  - destruct (n <? 50); simpl;
      (destruct Hr; [match goal with |- context [?a <? 1000] =>
                      replace (a <? 1000) with true
                        by (symmetry; apply Z.ltb_lt; lia) end
                    |match goal with |- context [?a >? 9999] =>
                      replace (a >? 9999) with true
                        by (symmetry; apply Z.gtb_lt; lia) end]);
      rewrite ?orb_true_r; reflexivity.
  - destruct Hr; [replace (n <? 1000) with true
                    by (symmetry; apply Z.ltb_lt; lia)
                 |replace (n >? 9999) with true
                    by (symmetry; apply Z.gtb_lt; lia)];
      rewrite ?orb_true_r; reflexivity.
Qed.

Lemma month_name_unknown p seg :
  type p = Some month ->
  (token p =? "MMM")%string || (token p =? "MMMM")%string = true ->
  monthNames (toLowerCase seg) = Undefined ->
  forall f0, parse_field p seg f0 = None.
Proof.
  intros Ht Hn Hu f0. unfold parse_field. rewrite Ht, Hn, Hu. reflexivity.
Qed.

Lemma assoc_in key l n : assoc key l = Some n -> In n (map snd l).
Proof.
  induction l as [|[k v] l IH]; simpl; [discriminate|].
  destruct (k =? key)%string; intros H; [injection H as ->|]; auto.
Qed.

Lemma monthNames_range key : in_range 1 12 true (monthNames key).
Proof.
  unfold monthNames. destruct (assoc key monthTable) as [n|] eqn:E.
  - apply assoc_in in E. simpl in E. simpl. intuition lia.
  - destruct (inherited key); simpl; auto.
Qed.

Lemma checked_in_range lo hi v :
  lt v lo || gt v hi = false -> v <> Obj -> in_range lo hi false v.
Proof.
  destruct v; simpl; auto; try congruence.
  unfold lt, gt; simpl. intros H _.
  apply orb_false_iff in H. destruct H as [H1 H2].
  apply Z.ltb_ge in H1. rewrite Z.gtb_ltb in H2. apply Z.ltb_ge in H2. lia.
Qed.

Lemma parseInt_not_obj s : parseInt s <> Obj.
Proof.
  unfold parseInt.
  destruct (match trimStart s with
            | String "-"%char r => (-1, r)
            | String "+"%char r => (1, r)
            | _ => (1, trimStart s)
            end) as [sign body].
  destruct (parse_digits None body); discriminate.
Qed.

Lemma parse_field_ok p seg f f' :
  fields_ok f -> parse_field p seg f = Some f' -> fields_ok f'.
Proof.
  intros (Hd & Hm & Hy). unfold parse_field.
  destruct (type p) as [[| |]|].
  - destruct (lt (parseInt seg) 1 || gt (parseInt seg) 31) eqn:E;
      [discriminate|]. intros H; injection H as <-.
    repeat split; simpl; auto.
    apply checked_in_range; auto using parseInt_not_obj.
  - destruct ((token p =? "MMM")%string || (token p =? "MMMM")%string).
    + destruct (negb (truthy (monthNames (toLowerCase seg))));
        [discriminate|]. intros H; injection H as <-.
      repeat split; simpl; auto using monthNames_range.
    + destruct (lt (parseInt seg) 1 || gt (parseInt seg) 12) eqn:E;
        [discriminate|]. intros H; injection H as <-.
      repeat split; simpl; auto.
      assert (in_range 1 12 false (parseInt seg))
        by (apply checked_in_range; auto using parseInt_not_obj).
      destruct (parseInt seg); simpl in *; auto; discriminate.
  - set (y := if (token p =? "YY")%string
              then (if lt (parseInt seg) 50 then add 2000 (parseInt seg)
                    else add 1900 (parseInt seg))
              else parseInt seg).
    destruct (lt y 1000 || gt y 9999) eqn:E; [discriminate|].
    intros H; injection H as <-.
    repeat split; simpl; auto.
    apply checked_in_range; auto.
    unfold y. destruct (token p =? "YY")%string; auto using parseInt_not_obj.
    destruct (lt (parseInt seg) 50); unfold add;
      destruct (ToNumber (parseInt seg)); discriminate.
  - intros H; injection H as <-. repeat split; auto.
Qed.

Lemma parse_parts_ok ps : forall segs off f f',
  fields_ok f -> parse_parts ps segs off f = Some f' -> fields_ok f'.
Proof.
  induction ps as [|p ps IH]; intros segs off f f' Hf; simpl.
  - intros H; injection H as <-. exact Hf.
  - destruct (nth_error segs off) as [seg|]; [|discriminate].
    destruct (negb (nonEmpty seg)); [discriminate|].
    destruct (parse_field p seg f) as [f1|] eqn:E; [|discriminate].
    apply IH. eapply parse_field_ok; eauto.
Qed.

(** Whatever [parseDate] returns is a calendar date with a year of four
    digits: the constructor [Date] only sees arguments in the range its
    model covers, and a day carried into the next month is rejected. *)
Lemma parseDate_sound info s date :
  parseDate info s = Some date ->
  1000 <= getFullYear date <= 9999
  /\ valid_date (getFullYear date) (getMonth date + 1) (getDate date).
Proof.
  unfold parseDate.
  destruct (negb (matches (regex info) (replace ".md" "" s ++ ".md")));
    [discriminate|].
  destruct (parse_parts _ _ _ _) as [f|] eqn:Hf; [|discriminate].
  apply parse_parts_ok in Hf; [|repeat split; simpl; auto].
  destruct Hf as (Hd & Hm & Hy).
  destruct (f_day f) as [| |d|], (f_month f) as [| |m|], (f_year f) as [| |y|];
    simpl in *; rewrite ?orb_true_r; try discriminate;
    try (destruct (negb (negb (d =? 0)) || false || negb (negb (y =? 0)));
         simpl; discriminate).
  destruct (negb (negb (d =? 0)) || negb (negb (m =? 0)) || negb (negb (y =? 0)));
    [discriminate|].
  simpl in Hd, Hm, Hy. unfold new_Date, add. simpl.
  assert (Hdim : 28 <= daysInMonth y (-1 + m) <= 31).
  { unfold daysInMonth.
    repeat match goal with |- context [if ?c then _ else _] => destruct c end;
      lia. }
  destruct (d <=? daysInMonth y (-1 + m)) eqn:Hle.
  - simpl. destruct (_ || _); [discriminate|].
    intros H; injection H as <-. simpl.
    apply Z.leb_le in Hle. unfold valid_date.
    replace (-1 + m + 1 - 1) with (-1 + m) by lia. lia.
  - destruct (-1 + m =? 11); simpl.
    + replace (y + 1 =? y) with false by (symmetry; apply Z.eqb_neq; lia).
      discriminate.
    + replace (-1 + m + 1 + 1 =? m) with false
        by (symmetry; apply Z.eqb_neq; lia).
      rewrite orb_true_r. discriminate.
Qed.

(** A calendar-impossible day, month and year make [parseDate] return
    null, as [31-04-2021] does under [DD-MM-YYYY]. *)
Lemma parseDate_rejects_impossible info s f :
  matches (regex info) (replace ".md" "" s ++ ".md") = true ->
  parse_parts (parts info) (segments info s) 0
    {| f_day := Undefined; f_month := Undefined; f_year := Undefined |}
  = Some f ->
  (forall y m d, f_year f = Num y -> f_month f = Num m -> f_day f = Num d ->
                 ~ valid_date y m d) ->
  parseDate info s = None.
Proof.
  intros Hm Hf Himp.
  destruct (parseDate info s) as [date|] eqn:E; auto.
  exfalso. pose proof (parseDate_sound _ _ _ E) as [_ Hv].
  unfold parseDate in E. rewrite Hm in E. simpl in E.
  fold (segments info s) in E. rewrite Hf in E.
  destruct (negb (truthy (f_day f)) || negb (truthy (f_month f))
            || negb (truthy (f_year f))); [discriminate|].
  destruct (new_Date _ _ _) as [dt|]; [|discriminate].
  destruct (strict_ne (getFullYear dt) (f_year f)) eqn:E1; [discriminate|].
  destruct (strict_ne (getMonth dt + 1) (f_month f)) eqn:E2; [discriminate|].
  destruct (strict_ne (getDate dt) (f_day f)) eqn:E3; [discriminate|].
  simpl in E. injection E as ->.
  destruct (f_year f) as [| |y|]; try discriminate.
  destruct (f_month f) as [| |m|]; try discriminate.
  destruct (f_day f) as [| |d|]; try discriminate.
  simpl in E1, E2, E3.
  apply negb_false_iff, Z.eqb_eq in E1, E2, E3.
  apply (Himp y m d); auto. rewrite <- E1, <- E2, <- E3. exact Hv.
Qed.

(** C5 (the code at the failing input).  Under the format
    [DD-MMMM-MM-YYYY] the name [15-constructor-07-2019] matches the
    pattern; its [MMMM] segment is no key of the month table, yet the
    lookup finds the inherited property [constructor], which is truthy, and
    the later [MM] field overwrites it: the parser returns 15 July 2019
    instead of null. *)
Theorem inherited_month_name_is_accepted :
  assoc (toLowerCase "constructor") monthTable = None
  /\ monthNames (toLowerCase "constructor") = Obj
  /\ parse "DD-MMMM-MM-YYYY" "15-constructor-07-2019" = Some (2019, 7, 15)
  /\ parse "DD-MMMM-YYYY" "15-constructor-2019" = None
  /\ parse "DD-MM-YYYY" "31-04-2021" = None.
Proof.
  repeat split; reflexivity.
Qed.

(** ** C6: the destination of a note *)

Lemma month_is_zero_padded m :
  0 <= m <= 11 -> String.length (padStart0 2 (toString (m + 1))) = 2%nat.
Proof.
  intros H.
  assert (C : m = 0 \/ m = 1 \/ m = 2 \/ m = 3 \/ m = 4 \/ m = 5 \/ m = 6
              \/ m = 7 \/ m = 8 \/ m = 9 \/ m = 10 \/ m = 11) by lia.
  repeat (destruct C as [->|C]; [reflexivity|]). subst. reflexivity.
Qed.

Lemma has_snoc ds q p : has (ds ++ [q]) p = has ds p || (p =? q)%string.
Proof.
  unfold has. rewrite existsb_app. simpl. rewrite orb_false_r. reflexivity.
Qed.

Ltac eval_string_tests :=
  repeat match goal with
         | |- context [(?a =? ?b)%string] =>
             let v := eval vm_compute in (a =? b)%string in
             change (a =? b)%string with v
         end.

Ltac fold_step :=
  repeat (cbn [fst snd visited dirs log counts app existsb orb];
          unfold ensure_folder, exists_path);
  cbn [fst snd visited dirs log counts app existsb orb];
  rewrite ?has_snoc; eval_string_tests; rewrite ?orb_false_r.



(** ** Characters, splitting and matching *)

Ltac by_char c :=
  destruct c as [[] [] [] [] [] [] [] []]; vm_compute;
  try reflexivity; try discriminate; auto.

Lemma digit_not_sep c : isDigit c = true -> isSep c = false.
Proof. by_char c. Qed.

Lemma letter_not_sep c : isLetter c = true -> isSep c = false.
Proof. by_char c. Qed.

Lemma sep_cases c : isSep c = true -> c = "-"%char \/ c = "/"%char.
Proof. by_char c. Qed.

Lemma split_separators_cases s :
  (has_separator s = false /\ split_separators s = [s])
  \/ (exists t c r,
        s = t ++ String c r /\ has_separator t = false /\ isSep c = true
        /\ split_separators s = t :: String c "" :: split_separators r).
Proof.
  induction s as [|a s IH]; [left; auto|].
  simpl. destruct (isSep a) eqn:Ha.
  - right. exists "", a, s. auto.
  - destruct IH as [[Hs ->]|(t & c & r & -> & Ht & Hc & ->)].
    + left. simpl. auto.
    + right. exists (String a t), c, r. simpl. rewrite Ha. auto.
Qed.

Lemma split_separators_no_sep s :
  has_separator s = false -> split_separators s = [s].
Proof.
  induction s as [|a s IH]; simpl; auto.
  destruct (isSep a); simpl; [discriminate|]. intros H. rewrite IH; auto.
Qed.

Lemma split_separators_app t c r :
  has_separator t = false -> isSep c = true ->
  split_separators (t ++ String c r) = t :: String c "" :: split_separators r.
Proof.
  intros Ht Hc. induction t as [|a t IH]; simpl.
  - rewrite Hc. reflexivity.
  - simpl in Ht. apply orb_false_iff in Ht. destruct Ht as [Ha Ht].
    rewrite Ha, IH; auto.
Qed.

(** The compiled artifacts, part by part. *)
Lemma fold_add_part ps : forall acc,
  regex (fold_left add_part ps acc) = (regex acc ++ flat_map part_items ps)%list
  /\ parts (fold_left add_part ps acc)
     = (parts acc ++ flat_map part_parts ps)%list
  /\ separator (fold_left add_part ps acc)
     = fold_left part_separator ps (separator acc).
Proof.
  induction ps as [|p ps IH]; intros acc; simpl.
  - rewrite !app_nil_r. auto.
  - destruct (IH (add_part acc p)) as (-> & -> & ->).
    unfold add_part, part_items, part_parts, part_separator.
    destruct (tokens p) as [t|]; simpl.
    + rewrite <- !app_assoc. auto.
    + destruct (has_separator p); simpl; rewrite <- ?app_assoc, ?app_nil_r; auto.
Qed.

Lemma compile_regex f :
  regex (compile f)
  = (flat_map part_items (split_separators f) ++ literal ".md")%list.
Proof.
  unfold compile. simpl.
  destruct (fold_add_part (split_separators f)
              {| regexStr := "^"; regex := []; parts := []; separator := "" |})
    as (-> & _ & _). reflexivity.
Qed.

Lemma compile_parts f :
  parts (compile f) = flat_map part_parts (split_separators f).
Proof.
  unfold compile. simpl.
  destruct (fold_add_part (split_separators f)
              {| regexStr := "^"; regex := []; parts := []; separator := "" |})
    as (_ & -> & _). reflexivity.
Qed.

Lemma compile_separator f :
  separator (compile f) = fold_left part_separator (split_separators f) "".
Proof.
  unfold compile. simpl.
  destruct (fold_add_part (split_separators f)
              {| regexStr := "^"; regex := []; parts := []; separator := "" |})
    as (_ & _ & ->). reflexivity.
Qed.

Lemma eat_text n a : text_atom a -> forall t c rest s',
  has_separator t = false -> isSep c = true ->
  eat n a (t ++ String c rest) = Some s' ->
  exists t', s' = t' ++ String c rest /\ has_separator t' = false.
Proof.
  intros Ha. induction n as [|n IH]; intros t c rest s' Ht Hc; simpl.
  - intros H; injection H as <-. eauto.
  - destruct t as [|x t]; simpl.
    + destruct (atom_ok a c) eqn:E; [|discriminate].
      apply Ha in E. congruence.
    + simpl in Ht. apply orb_false_iff in Ht. destruct Ht as [_ Ht].
      destruct (atom_ok a x); [|discriminate]. apply IH; auto.
Qed.

Lemma more_text a k : text_atom a -> forall t c rest,
  has_separator t = false -> isSep c = true ->
  more a k (t ++ String c rest) = true ->
  exists t', k (t' ++ String c rest) = true /\ has_separator t' = false.
Proof.
  intros Ha. induction t as [|x t IH]; intros c rest Ht Hc; simpl.
  - intros H. apply orb_true_iff in H. destruct H as [H|H].
    + exists "". auto.
    + apply andb_true_iff in H. destruct H as [H _]. apply Ha in H. congruence.
  - simpl in Ht. apply orb_false_iff in Ht. destruct Ht as [Hx Ht].
    intros H. apply orb_true_iff in H. destruct H as [H|H].
    + exists (String x t). simpl. rewrite Hx. auto.
    + apply andb_true_iff in H. destruct H as [_ H]. apply IH in H; auto.
Qed.

(** Text items followed by a literal separator consume exactly the text
    before the first separator of the input. *)
Lemma matches_aligned items : Forall text_item items ->
  forall t c c' R rest,
    has_separator t = false -> isSep c = true -> isSep c' = true ->
    matches (items ++ Exactly 1 (Lit c) :: R) (t ++ String c' rest) = true ->
    c = c' /\ matches R rest = true.
Proof.
  induction 1 as [|i items Hi _ IH]; intros t c c' R rest Ht Hc Hc'.
  - simpl. destruct t as [|x t]; simpl.
    + destruct (Ascii.eqb c c') eqn:E; [|discriminate].
      apply Ascii.eqb_eq in E. auto.
    + destruct (Ascii.eqb c x) eqn:E; [|discriminate].
      apply Ascii.eqb_eq in E. subst x. simpl in Ht. rewrite Hc in Ht.
      discriminate.
  - simpl. destruct i as [n a|n a]; simpl in Hi;
      destruct (eat n a (t ++ String c' rest)) as [s'|] eqn:E;
      try discriminate;
      apply eat_text in E; auto; destruct E as (t' & -> & Ht').
    + apply IH; auto.
    + intros H. apply more_text in H; auto. destruct H as (t'' & H & Ht'').
      eapply IH; eauto.
Qed.

Lemma literal_text s :
  has_separator s = false -> Forall text_item (literal s).
Proof.
  unfold literal. induction s as [|a s IH]; simpl; [constructor|].
  intros H. apply orb_false_iff in H. destruct H as [Ha Hs].
  constructor; auto. simpl. intros c Hc. apply Ascii.eqb_eq in Hc. congruence.
Qed.

Lemma part_items_text p :
  has_separator p = false -> Forall text_item (part_items p).
Proof.
  intros Hp. unfold part_items. rewrite Hp. unfold tokens.
  repeat match goal with
         | |- context [if ?c then _ else _] => destruct c
         end; simpl re;
    try (apply literal_text; reflexivity);
    repeat constructor; simpl;
    intros c Hc; auto using digit_not_sep, letter_not_sep.
Qed.

Lemma matches_literal w : forall s, matches (literal w) s = (w =? s)%string.
Proof.
  unfold literal. induction w as [|c w IH]; intros s.
  - destruct s; reflexivity.
  - destruct s as [|x s]; [reflexivity|].
    cbn [list_ascii_of_string map matches eat atom_ok String.eqb].
    destruct (Ascii.eqb c x); [apply IH|reflexivity].
Qed.

Lemma matches_literal_md s :
  matches (literal ".md") s = true <-> s = ".md".
Proof.
  rewrite matches_literal, String.eqb_eq. split; congruence.
Qed.

Lemma append_assoc (a b c : string) : (a ++ b) ++ c = a ++ (b ++ c).
Proof.
  induction a as [|x a IH]; simpl; [reflexivity|]. rewrite IH. reflexivity.
Qed.

Lemma sep_not_digit c : isSep c = true -> isDigit c = false.
Proof. by_char c. Qed.

Lemma part_items_sep c :
  isSep c = true -> part_items (String c "") = [Exactly 1 (Lit c)].
Proof.
  intros H. apply sep_cases in H. destruct H as [->| ->]; reflexivity.
Qed.

Lemma two_digits_needed (c y : ascii) rest R :
  isDigit y = false ->
  matches (Exactly 2 Digit :: R) (String c (String y rest)) = false.
Proof.
  intros Hy. cbn [matches eat atom_ok]. rewrite Hy.
  destruct (isDigit c); reflexivity.
Qed.

Lemma part_items_DD_MM tok :
  tok = "DD" \/ tok = "MM" -> part_items tok = [Exactly 2 Digit].
Proof.
  intros [->| ->]; reflexivity.
Qed.

(** ** C10: single-digit day and month segments *)

(** When the [k]-th part of the format is [DD] or [MM] and the [k]-th
    part of the stem is a single character, the pattern does not match. *)
Lemma single_char_part_no_match : forall k format stem tok c,
  tok = "DD" \/ tok = "MM" ->
  nth_error (split_separators format) k = Some tok ->
  nth_error (split_separators stem) k = Some (String c "") ->
  matches (flat_map part_items (split_separators format) ++ literal ".md")
    (stem ++ ".md") = false.
Proof.
  assert (P : forall k,
    (forall format stem tok c,
       tok = "DD" \/ tok = "MM" ->
       nth_error (split_separators format) k = Some tok ->
       nth_error (split_separators stem) k = Some (String c "") ->
       matches (flat_map part_items (split_separators format) ++ literal ".md")
         (stem ++ ".md") = false)
    /\ (forall format stem tok c,
       tok = "DD" \/ tok = "MM" ->
       nth_error (split_separators format) (S k) = Some tok ->
       nth_error (split_separators stem) (S k) = Some (String c "") ->
       matches (flat_map part_items (split_separators format) ++ literal ".md")
         (stem ++ ".md") = false)).
  { induction k as [|k [IHk IHSk]].
    - split; intros format stem tok c Htok Hf Hs.
      + destruct (split_separators_cases format)
          as [[_ Ef]|(t & c1 & r & -> & Ht & Hc1 & Ef)];
          rewrite Ef in Hf |- *; simpl in Hf; injection Hf as ->;
          destruct (split_separators_cases stem)
            as [[_ Es]|(t' & c1' & r' & -> & Ht' & Hc1' & Es)];
          rewrite Es in Hs; simpl in Hs; injection Hs as ->;
          cbn [flat_map]; rewrite (part_items_DD_MM tok Htok);
          cbn [app append]; apply two_digits_needed;
          auto using sep_not_digit.
      + destruct (split_separators_cases format)
          as [[_ Ef]|(t & c1 & r & -> & Ht & Hc1 & Ef)];
          rewrite Ef in Hf; simpl in Hf; [discriminate|].
        injection Hf as <-. destruct Htok; discriminate.
    - split; [exact IHSk|].
      intros format stem tok c Htok Hf Hs.
      destruct (split_separators_cases format)
        as [[_ Ef]|(t & c1 & r & -> & Ht & Hc1 & Ef)];
        rewrite Ef in Hf |- *; simpl in Hf; [discriminate|].
      destruct (split_separators_cases stem)
        as [[_ Es]|(t' & c1' & r' & -> & Ht' & Hc1' & Es)];
        rewrite Es in Hs; simpl in Hs; [discriminate|].
      cbn [flat_map]. rewrite (part_items_sep c1 Hc1).
      rewrite <- !app_assoc. cbn [app].
      rewrite append_assoc. cbn [append].
      destruct (matches _ _) eqn:E; [|reflexivity].
      apply matches_aligned in E; auto using part_items_text.
      destruct E as [_ E].
      rewrite (IHk r r' tok c Htok Hf Hs) in E. discriminate. }
  intros k. apply (P k).
Qed.

Lemma archive_file_no_match st info todayISO aside rest s file :
  matches (regex info) (name file) = false ->
  archive_file st info todayISO aside rest s file
  = pass_over s file (counts s) (dirs s) (log s).
Proof.
  intros H. unfold archive_file. rewrite H, andb_false_r. reflexivity.
Qed.

Lemma relocate_file_no_match st info aside rest s file :
  matches (regex info) (name file) = false ->
  relocate_file st info aside rest s file
  = pass_over s file (counts s) (dirs s) (log s).
Proof.
  intros H. unfold relocate_file. rewrite H, andb_false_r. reflexivity.
Qed.

(** C10.  For every format with a [DD] or [MM] part, a file name whose
    part at the same position is a single character (as [2-12-2020.md]
    under [DD-MM-YYYY]) does not match the compiled pattern; both passes
    step over such a file without counting it as found and without moving
    it. *)
Theorem single_digit_segment_never_matches format stem k tok c :
  tok = "DD" \/ tok = "MM" ->
  nth_error (split_separators format) k = Some tok ->
  nth_error (split_separators stem) k = Some (String c "") ->
  matches (regex (compile format)) (stem ++ ".md") = false
  /\ (forall st todayISO aside rest s file,
        name file = stem ++ ".md" ->
        archive_file st (compile format) todayISO aside rest s file
        = pass_over s file (counts s) (dirs s) (log s)
        /\ relocate_file st (compile format) aside rest s file
           = pass_over s file (counts s) (dirs s) (log s)).
Proof.
  intros Htok Hf Hs.
  assert (H : matches (regex (compile format)) (stem ++ ".md") = false).
  { rewrite compile_regex. eapply single_char_part_no_match; eauto. }
  split; [exact H|].
  intros st todayISO aside rest s file Hname. rewrite <- Hname in H.
  split; [apply archive_file_no_match|apply relocate_file_no_match]; exact H.
Qed.

Lemma single_digit_segment_never_matches_witness :
  matches (regex (compile "DD-MM-YYYY")) "2-12-2020.md" = false.
Proof.
  exact (proj1 (single_digit_segment_never_matches "DD-MM-YYYY" "2-12-2020"
                  0 "DD" "2" (or_introl eq_refl) eq_refl eq_refl)).
Defined.

(** ** C9: formats without a separator *)

Lemma relocate_file_renames st info aside rest s file f q :
  In (Renamed f q) (log (relocate_file st info aside rest s file)) ->
  In (Renamed f q) (log s)
  \/ (f = file
      /\ exists d, parseDate info (replace ".md" "" (name file)) = Some d).
Proof.
  unfold relocate_file.
  destruct ((extension file =? "md")%string && matches (regex info) (name file));
    [|simpl; auto].
  destruct (parseDate info (replace ".md" "" (name file))) as [d|] eqn:Hp.
  2:{ simpl. intros H. apply in_app_or in H.
      destruct H as [H|[H|[]]]; auto; discriminate. }
  destruct (destination st _ d file (dirs s, log s)) as [newPath [ds l]] eqn:Hd.
  assert (Hl : forall f q, In (Renamed f q) l -> In (Renamed f q) (log s)).
  { intros f' q' H.
    change l with (snd (snd (newPath, (ds, l)))) in H. rewrite <- Hd in H.
    apply destination_renamed in H. exact H. }
  unfold try_rename. destruct (exists_path ds _ newPath); simpl; intros H;
    apply in_app_or in H; destruct H as [H|[H|[]]]; auto; try discriminate.
  injection H as -> ->. right. split; eauto.
Qed.

(** A format under which nothing parses moves nothing, in either pass. *)
Lemma no_date_no_move depth st info :
  getDateFormatInfo depth st = Ok info ->
  (forall s, parseDate info s = None) ->
  forall today v file,
    ~ moved_in (moveOldDailyNotes depth st today v) file
    /\ ~ moved_in (relocateOldNotes depth st v) file.
Proof.
  intros Hinfo Hnone today v file.
  unfold moved_in, moveOldDailyNotes, relocateOldNotes. rewrite Hinfo. simpl.
  split; intros [q Hq]; revert file q Hq.
  - apply (for_each_invariant (archive_file st info (iso today) [])
             (fun s => forall f q, ~ In (Renamed f q) (log s))).
    + intros rest s f IH f' q H. apply archive_file_renames in H.
      destruct H as [H|(_ & _ & d & Hd & _)]; [exact (IH _ _ H)|].
      rewrite Hnone in Hd. discriminate.
    + intros f q. apply start_no_rename.
  - apply (for_each_invariant
             (relocate_file st info
                (filter (fun f => negb (in_oldFolder f)) (files v)))
             (fun s => forall f q, ~ In (Renamed f q) (log s))).
    + intros rest s f IH f' q H. apply relocate_file_renames in H.
      destruct H as [H|(_ & d & Hd)]; [exact (IH _ _ H)|].
      rewrite Hnone in Hd. discriminate.
    + intros f q. apply start_no_rename.
Qed.

Lemma one_field_is_not_a_date p seg f :
  parse_field p seg
    {| f_day := Undefined; f_month := Undefined; f_year := Undefined |}
  = Some f ->
  negb (truthy (f_day f)) || negb (truthy (f_month f))
  || negb (truthy (f_year f)) = true.
Proof.
  unfold parse_field.
  destruct (type p) as [[| |]|];
    repeat match goal with
           | |- context [if ?c then _ else _] => destruct c
           end;
    intros H; try discriminate; injection H as <-; simpl;
    rewrite ?orb_true_r; reflexivity.
Qed.

(** With at most one part no name yields a date: a day, a month and a
    year are all required. *)
Lemma short_parts_no_date info s :
  (List.length (parts info) <= 1)%nat -> parseDate info s = None.
Proof.
  intros Hlen. unfold parseDate.
  destruct (negb (matches (regex info) (replace ".md" "" s ++ ".md")));
    [reflexivity|].
  destruct (parts info) as [|p [|p' ps]]; [reflexivity| |simpl in Hlen; lia].
  cbn [parse_parts].
  destruct (nth_error _ 0) as [seg|]; [|reflexivity].
  destruct (negb (nonEmpty seg)); [reflexivity|].
  destruct (parse_field p seg _) as [f|] eqn:E; [|reflexivity].
  rewrite (one_field_is_not_a_date _ _ _ E). reflexivity.
Qed.

Lemma part_parts_short p : (List.length (part_parts p) <= 1)%nat.
Proof.
  unfold part_parts. destruct (tokens p); simpl; lia.
Qed.

Lemma compile_unrecognized f :
  has_separator f = false -> tokens f = None ->
  compile f = {| regexStr := "^\.md$"; regex := literal ".md";
                 parts := []; separator := "" |}.
Proof.
  intros Hs Ht. unfold compile. rewrite (split_separators_no_sep f Hs).
  cbn [fold_left]. unfold add_part. rewrite Ht, Hs. reflexivity.
Qed.

(** C9 as stated fails for a format that is itself a key of the token
    table: [DD] has no separator, yet it is a recognized segment, the
    compiled pattern holds the sub-pattern of [DD] and matches [15.md],
    which the archive pass counts as found; the inherited key
    [constructor] is found as well and compiles to [^undefined\.md$]; and
    the empty format stands for the default [DD-MM-YYYY], under which
    dated notes are moved. *)
Lemma single_token_format_is_recognized :
  has_separator "DD" = false
  /\ regexStr (compile "DD") = "^\d{2}\.md$"
  /\ parts (compile "DD") = [{| token := "DD"; type := Some day |}]
  /\ matches (regex (compile "DD")) "15.md" = true
  /\ matches (regex (compile "DD")) ".md" = false
  /\ found (tally (moveOldDailyNotes 1 (archive_settings "DD" false)
                     {| getFullYear := 2026; getMonth := 10; getDate := 2 |}
                     {| files := [note "" "15.md"]; folders := [] |})) = 1%nat
  /\ regexStr (compile "constructor") = "^undefined\.md$"
  /\ matches (regex (compile "constructor")) "undefined.md" = true
  /\ getDateFormatInfo 1 (archive_settings "" false)
     = Ok (compile default_dateFormat)
  /\ moved_in (moveOldDailyNotes 1 (archive_settings "" false)
                 {| getFullYear := 2026; getMonth := 10; getDate := 2 |}
                 {| files := [note "" "15-07-2019.md"]; folders := [] |})
       (note "" "15-07-2019.md").
Proof.
  repeat split; try reflexivity.
  exists "Archive/15-07-2019.md". vm_compute. auto.
Qed.

(** C9 (amended).  A format without [-] and [/] is split into one
    segment.  Unless that segment is a key of the token table (one of the
    six tokens, or a name inherited from [Object.prototype]), it is
    unrecognized: the pattern is [^\.md$], it has no token sub-pattern and
    matches the name [.md] only.  In every case, single tokens included,
    the parser returns null for every string, and no file is moved by
    either pass. *)
Theorem format_without_separator f :
  has_separator f = false ->
  split_separators f = [f]
  /\ (tokens f = None ->
      regexStr (compile f) = "^\.md$"
      /\ parts (compile f) = []
      /\ forall s, matches (regex (compile f)) s = true <-> s = ".md")
  /\ (forall s, parseDate (compile f) s = None)
  /\ (f <> "" ->
      forall depth st today v file,
        dateFormat st = SStr f ->
        ~ moved_in (moveOldDailyNotes depth st today v) file
        /\ ~ moved_in (relocateOldNotes depth st v) file).
Proof.
  intros Hs.
  assert (Hnone : forall s, parseDate (compile f) s = None).
  { intros s. apply short_parts_no_date.
    rewrite compile_parts, (split_separators_no_sep f Hs). simpl.
    rewrite app_nil_r. apply part_parts_short. }
  split; [apply split_separators_no_sep; exact Hs|].
  split; [|split; [exact Hnone|]].
  - intros Ht. rewrite (compile_unrecognized f Hs Ht). simpl.
    repeat split; try apply matches_literal_md.
  - intros Hne depth st today v file Hfmt.
    destruct depth as [|depth].
    + unfold moved_in, moveOldDailyNotes, relocateOldNotes. simpl.
      split; intros [q []].
    + apply (no_date_no_move (S depth) st (compile f)); auto.
      rewrite (getDateFormatInfo_string depth st f Hfmt).
      apply String.eqb_neq in Hne. rewrite Hne. reflexivity.
Qed.

Lemma format_without_separator_witness :
  split_separators "DDMMMYYYY" = ["DDMMMYYYY"]
  /\ parseDate (compile "DDMMMYYYY") "15Jul2019" = None.
Proof.
  pose proof (format_without_separator "DDMMMYYYY" eq_refl) as (H1 & _ & H3 & _).
  split; [exact H1|exact (H3 "15Jul2019")].
Defined.

(** ** C7: running the archive pass twice *)

Lemma prefix_app a b : prefix a (a ++ b) = true.
Proof.
  induction a as [|x a IH]; simpl; [destruct b; reflexivity|].
  destruct (ascii_dec x x); [exact IH|contradiction].
Qed.

Lemma startsWith_app s p x : startsWith s p = true -> startsWith (s ++ x) p = true.
Proof.
  unfold startsWith. revert s. induction p as [|c p IH]; intros s.
  - destruct (s ++ x); reflexivity.
  - destruct s as [|y s]; simpl; [discriminate|].
    destruct (ascii_dec c y); [apply IH|discriminate].
Qed.

Lemma startsWith_target t x : startsWith (t ++ "/" ++ x) (t ++ "/") = true.
Proof.
  unfold startsWith.
  replace (t ++ "/" ++ x) with ((t ++ "/") ++ x) by apply append_assoc.
  apply prefix_app.
Qed.

Lemma dest_path_under_target st d file :
  startsWith (dest_path st d file) (targetFolder st ++ "/") = true.
Proof.
  unfold dest_path. destruct (useYearMonthSubfolders st).
  - apply startsWith_app, startsWith_app, startsWith_target.
  - apply startsWith_target.
Qed.

Lemma dest_folders_under_target st d p :
  In p (dest_folders st d) -> startsWith p (targetFolder st ++ "/") = true.
Proof.
  unfold dest_folders. destruct (useYearMonthSubfolders st); simpl.
  - intros [<-|[<-|[]]].
    + apply startsWith_target.
    + apply startsWith_app, startsWith_target.
  - intros [].
Qed.

Lemma destination_eq st fs d file dl :
  destination st fs d file dl
  = (dest_path st d file,
     fold_left (fun acc p => ensure_folder fs p acc) (dest_folders st d) dl).
Proof.
  unfold destination, dest_path, dest_folders.
  destruct (useYearMonthSubfolders st); reflexivity.
Qed.

Lemma has_app ds ds' p : has (ds ++ ds') p = has ds p || has ds' p.
Proof. unfold has. apply existsb_app. Qed.

Lemma ensure_folder_grows fs q dl p :
  exists_path (fst dl) fs p = true ->
  exists_path (fst (ensure_folder fs q dl)) fs p = true.
Proof.
  unfold ensure_folder. destruct (exists_path (fst dl) fs q); auto.
  simpl. unfold exists_path. rewrite has_app. intros H.
  apply orb_true_iff in H. destruct H as [-> | ->]; rewrite ?orb_true_r; auto.
Qed.

Lemma ensure_folder_exists fs q dl :
  exists_path (fst (ensure_folder fs q dl)) fs q = true.
Proof.
  unfold ensure_folder. destruct (exists_path (fst dl) fs q) eqn:E; auto.
  simpl. unfold exists_path. rewrite has_snoc, String.eqb_refl.
  rewrite orb_true_r. reflexivity.
Qed.

Lemma ensure_folder_idle fs q dl :
  exists_path (fst dl) fs q = true -> ensure_folder fs q dl = dl.
Proof.
  unfold ensure_folder. intros ->. reflexivity.
Qed.

Lemma ensure_all_grows fs qs : forall dl p,
  exists_path (fst dl) fs p = true ->
  exists_path (fst (fold_left (fun acc q => ensure_folder fs q acc) qs dl))
    fs p = true.
Proof.
  induction qs as [|q qs IH]; intros dl p H; simpl; auto.
  apply IH, ensure_folder_grows, H.
Qed.

Lemma ensure_all_exist fs qs : forall dl q,
  In q qs ->
  exists_path (fst (fold_left (fun acc q => ensure_folder fs q acc) qs dl))
    fs q = true.
Proof.
  induction qs as [|q0 qs IH]; intros dl q []; simpl.
  - subst q0. apply ensure_all_grows, ensure_folder_exists.
  - apply IH; auto.
Qed.

Lemma ensure_all_idle fs qs : forall dl,
  (forall q, In q qs -> exists_path (fst dl) fs q = true) ->
  fold_left (fun acc q => ensure_folder fs q acc) qs dl = dl.
Proof.
  induction qs as [|q qs IH]; intros dl H; simpl; auto.
  rewrite ensure_folder_idle by (apply H; left; reflexivity).
  apply IH. intros q' Hq'. apply H. right. exact Hq'.
Qed.

(** Replacing a file whose path is not under the target folder keeps
    every path under the target folder in place. *)
Lemma exists_path_replace ds a x x' b p :
  (p =? path x)%string = false ->
  exists_path ds (a ++ x :: b) p = true ->
  exists_path ds (a ++ x' :: b) p = true.
Proof.
  unfold exists_path. rewrite !existsb_app. simpl. intros -> H.
  apply orb_true_iff in H. destruct H as [->|H]; [reflexivity|].
  apply orb_true_iff in H. simpl in H. destruct H as [->| ->];
    rewrite ?orb_true_r; reflexivity.
Qed.

Lemma exists_path_dirs ds ds' fs p :
  (forall q, has ds q = true -> has ds' q = true) ->
  exists_path ds fs p = true -> exists_path ds' fs p = true.
Proof.
  unfold exists_path. intros Hd H.
  apply orb_true_iff in H. destruct H as [H| ->];
    [rewrite (Hd _ H)|rewrite orb_true_r]; reflexivity.
Qed.

Lemma settled_mono st info todayISO ds fs ds' fs' file :
  (forall p, startsWith p (targetFolder st ++ "/") = true ->
             exists_path ds fs p = true -> exists_path ds' fs' p = true) ->
  settled st info todayISO ds fs file ->
  settled st info todayISO ds' fs' file.
Proof.
  intros Hm Hs d Hd. destruct (Hs d Hd) as [Hf Hp]. split.
  - intros p Hin. apply Hm; auto. eapply dest_folders_under_target; eauto.
  - destruct Hp as [Hp|Hp]; [left; exact Hp|right].
    apply Hm; auto. apply dest_path_under_target.
Qed.

Lemma eligible_set_path info todayISO file p :
  eligible info todayISO (set_path file p) = eligible info todayISO file.
Proof. reflexivity. Qed.

Lemma archive_file_settled st info todayISO aside rest s file :
  settled st info todayISO (dirs s) (visited s ++ file :: rest ++ aside) file ->
  let s' := archive_file st info todayISO aside rest s file in
  visited s' = (visited s ++ [file])%list
  /\ dirs s' = dirs s
  /\ moved (counts s') = moved (counts s)
  /\ (forall f q, In (Renamed f q) (log s') -> In (Renamed f q) (log s)).
Proof.
  intros Hs. unfold settled, eligible in Hs. unfold archive_file.
  destruct ((extension file =? "md")%string && matches (regex info) (name file));
    [|simpl; auto].
  destruct (parseDate info (replace ".md" "" (name file))) as [d|].
  2:{ simpl. repeat split; auto. intros f q H. apply in_app_or in H.
      destruct H as [H|[H|[]]]; auto; discriminate. }
  destruct (negb (iso d =? todayISO)%string); [|simpl; auto].
  destruct (Hs d eq_refl) as [Hf Hp].
  rewrite destination_eq, ensure_all_idle by exact Hf.
  destruct (startsWith (path file) (targetFolder st ++ "/")); simpl; auto.
  destruct Hp as [Hp|Hp]; [discriminate|].
  unfold try_rename. rewrite Hp. simpl. repeat split; auto.
  intros f q H. apply in_app_or in H.
  destruct H as [H|[H|[]]]; auto; discriminate.
Qed.

Lemma archive_file_settles st info todayISO aside rest s file :
  let s' := archive_file st info todayISO aside rest s file in
  exists file',
    visited s' = (visited s ++ [file'])%list
    /\ (file' = file
        \/ startsWith (path file) (targetFolder st ++ "/") = false)
    /\ (forall p, startsWith p (targetFolder st ++ "/") = true ->
          exists_path (dirs s) (visited s ++ file :: rest ++ aside) p = true ->
          exists_path (dirs s') (visited s ++ file' :: rest ++ aside) p = true)
    /\ settled st info todayISO (dirs s')
         (visited s ++ file' :: rest ++ aside) file'.
Proof.
  destruct (eligible info todayISO file) as [d|] eqn:He.
  2:{ exists file.
      assert (Hid : archive_file st info todayISO aside rest s file
                    = pass_over s file
                        (counts (archive_file st info todayISO aside rest s file))
                        (dirs s)
                        (log (archive_file st info todayISO aside rest s file))).
      { unfold eligible in He. unfold archive_file.
        destruct ((extension file =? "md")%string
                  && matches (regex info) (name file)); [|reflexivity].
        destruct (parseDate info (replace ".md" "" (name file))) as [d|];
          [|reflexivity].
        destruct (negb (iso d =? todayISO)%string); [discriminate|reflexivity]. }
      rewrite Hid. simpl. split; [reflexivity|]. split; [auto|].
      split; [auto|]. intros d Hd. congruence. }
  assert (Hstep : archive_file st info todayISO aside rest s file
                  = let '(newPath, (ds, l)) :=
                      destination st (visited s ++ file :: rest ++ aside) d file
                        (dirs s, log s) in
                    if negb (startsWith (path file) (targetFolder st ++ "/"))
                    then try_rename (visited s ++ file :: rest ++ aside) file
                           newPath ds (bump_found (counts s)) l s
                    else pass_over s file
                           (bump_skipped (bump_found (counts s))) ds l).
  { unfold eligible in He. unfold archive_file.
    destruct ((extension file =? "md")%string
              && matches (regex info) (name file)); [|discriminate].
    destruct (parseDate info (replace ".md" "" (name file))) as [d'|];
      [|discriminate].
    destruct (negb (iso d' =? todayISO)%string); [|discriminate].
    injection He as ->. reflexivity. }
  rewrite Hstep. clear Hstep. rewrite destination_eq.
  set (fs := (visited s ++ file :: rest ++ aside)%list).
  pose proof (ensure_all_grows fs (dest_folders st d) (dirs s, log s)) as Hgrow.
  pose proof (ensure_all_exist fs (dest_folders st d) (dirs s, log s)) as Hall.
  destruct (fold_left (fun acc p => ensure_folder fs p acc)
              (dest_folders st d) (dirs s, log s)) as [ds l].
  simpl in Hgrow, Hall.
  destruct (startsWith (path file) (targetFolder st ++ "/")) eqn:Eu; simpl.
  - exists file. split; [reflexivity|]. split; [auto|]. split; [auto|].
    intros d' Hd'. rewrite He in Hd'. injection Hd' as <-. auto.
  - unfold try_rename.
    destruct (exists_path ds fs (dest_path st d file)) eqn:Ex; simpl.
    + exists file. split; [reflexivity|]. split; [auto|]. split; [auto|].
      intros d' Hd'. rewrite He in Hd'. injection Hd' as <-. auto.
    + exists (set_path file (dest_path st d file)).
      assert (Hrep : forall p,
                startsWith p (targetFolder st ++ "/") = true ->
                exists_path ds fs p = true ->
                exists_path ds
                  (visited s ++ set_path file (dest_path st d file)
                   :: rest ++ aside) p = true).
      { intros p Hp. apply exists_path_replace.
        apply String.eqb_neq. intros ->. congruence. }
      split; [reflexivity|]. split; [auto|]. split; [auto|].
      intros d' Hd'. rewrite eligible_set_path, He in Hd'. injection Hd' as <-.
      split.
      * intros p Hin. apply Hrep; auto.
        eapply dest_folders_under_target; eauto.
      * left. simpl. apply dest_path_under_target.
Qed.

Lemma archive_pass_settles st info todayISO aside : forall todo s,
  (forall f, In f (visited s) ->
             settled st info todayISO (dirs s) (visited s ++ todo ++ aside) f) ->
  let s' := for_each (archive_file st info todayISO aside) todo s in
  forall f, In f (visited s') ->
            settled st info todayISO (dirs s') (visited s' ++ aside) f.
Proof.
  induction todo as [|file rest IH]; intros s Hs; simpl; [exact Hs|].
  apply IH. intros f Hin.
  destruct (archive_file_settles st info todayISO aside rest s file)
    as (file' & Ev & _ & Hm & Hset).
  rewrite Ev in Hin |- *. rewrite <- app_assoc. simpl.
  apply in_app_or in Hin. destruct Hin as [Hin|[<-|[]]]; [|exact Hset].
  eapply settled_mono; [exact Hm|]. apply Hs. exact Hin.
Qed.

Lemma archive_pass_idle st info todayISO aside : forall todo s,
  (forall f, In f todo ->
             settled st info todayISO (dirs s) (visited s ++ todo ++ aside) f) ->
  let s' := for_each (archive_file st info todayISO aside) todo s in
  visited s' = (visited s ++ todo)%list
  /\ dirs s' = dirs s
  /\ moved (counts s') = moved (counts s)
  /\ (forall f q, In (Renamed f q) (log s') -> In (Renamed f q) (log s)).
Proof.
  induction todo as [|file rest IH]; intros s Hs; simpl.
  - rewrite app_nil_r. auto.
  - destruct (archive_file_settled st info todayISO aside rest s file)
      as (Ev & Ed & Em & El); [apply Hs; left; reflexivity|].
    destruct (IH (archive_file st info todayISO aside rest s file))
      as (Ev' & Ed' & Em' & El').
    { intros f Hin. rewrite Ev, Ed, <- app_assoc. simpl.
      apply Hs. right. exact Hin. }
    rewrite Ev', Ed', Em', Ev, Ed, Em, <- app_assoc. simpl.
    repeat split; auto.
Qed.

Lemma archive_pass_keeps st info todayISO aside : forall todo s f,
  In f (visited s)
  \/ (In f todo /\ startsWith (path f) (targetFolder st ++ "/") = true) ->
  In f (visited (for_each (archive_file st info todayISO aside) todo s)).
Proof.
  induction todo as [|file rest IH]; intros s f H; simpl.
  - destruct H as [H|[[] _]]. exact H.
  - apply IH.
    destruct (archive_file_settles st info todayISO aside rest s file)
      as (file' & Ev & Hsame & _).
    rewrite Ev.
    destruct H as [H|[[<-|H] Hu]].
    + left. apply in_or_app. left. exact H.
    + left. apply in_or_app. right. left.
      destruct Hsame as [->|Hn]; [reflexivity|congruence].
    + right. auto.
Qed.

Lemma start_dirs v target q :
  has (folders v) q = true -> has (dirs (start v target)) q = true.
Proof.
  unfold start, ensure_folder. simpl.
  destruct (exists_path (folders v) (files v) target); simpl; auto.
  rewrite has_app. intros ->. reflexivity.
Qed.

Lemma start_visited v target : visited (start v target) = [].
Proof.
  unfold start. destruct (ensure_folder _ _ _). reflexivity.
Qed.

Lemma start_counts v target : counts (start v target) = no_counts.
Proof.
  unfold start. destruct (ensure_folder _ _ _). reflexivity.
Qed.

(** C7.  The archive pass issues no move for a file whose path lies under
    the target folder and leaves that file in the vault as it is; and
    running the pass a second time on the vault the first run left moves
    no file: the file table is unchanged, no rename is issued and the
    moved count is zero. *)
Theorem archive_is_idempotent depth st today v :
  let r1 := moveOldDailyNotes depth st today v in
  let r2 := moveOldDailyNotes depth st today (vault r1) in
  (forall f q, In (Renamed f q) (events r1) ->
               startsWith (path f) (targetFolder st ++ "/") = false)
  /\ (forall f, In f (files v) ->
                startsWith (path f) (targetFolder st ++ "/") = true ->
                In f (files (vault r1)))
  /\ moved (tally r2) = 0%nat
  /\ files (vault r2) = files (vault r1)
  /\ (forall f, ~ moved_in r2 f).
Proof.
  unfold moveOldDailyNotes.
  destruct (getDateFormatInfo depth st) as [info|] eqn:Hinfo; simpl.
  2:{ repeat split; auto; try contradiction. intros f [q []]. }
  unfold finish. simpl. rewrite !app_nil_r.
  set (s1 := for_each (archive_file st info (iso today) []) (files v)
               (start v (targetFolder st))).
  set (v1 := {| files := visited s1; folders := dirs s1 |}).
  assert (Hset : forall f, In f (visited s1) ->
            settled st info (iso today) (dirs s1) (visited s1 ++ []) f).
  { apply archive_pass_settles. rewrite start_visited. intros f []. }
  destruct (archive_pass_idle st info (iso today) [] (files v1)
              (start v1 (targetFolder st)))
    as (Ev & _ & Em & El).
  { rewrite start_visited. simpl. intros f Hin.
    eapply settled_mono; [|apply Hset; exact Hin].
    intros p _. apply exists_path_dirs. intros q. apply (start_dirs v1). }
  rewrite start_visited in Ev. rewrite start_counts in Em.
  repeat split.
  - intros f q.
    apply (for_each_invariant (archive_file st info (iso today) [])
             (fun s => forall f q, In (Renamed f q) (log s) ->
                startsWith (path f) (targetFolder st ++ "/") = false)).
    + intros rest s file IH f' q' H. apply archive_file_renames in H.
      destruct H as [H|(-> & Hu & _)]; eauto.
    + intros f' q' H. exfalso. eapply start_no_rename. exact H.
  - intros f Hin Hu. apply archive_pass_keeps. right. auto.
  - exact Em.
  - exact Ev.
  - intros f [q Hq]. simpl in Hq. apply El in Hq.
    eapply start_no_rename. exact Hq.
Qed.

(** ** C3: the round trip *)

Lemma digit_char_ok k :
  0 <= k <= 9 -> isDigit (digit_char k) = true /\ digitVal (digit_char k) = k.
Proof.
  intros H.
  assert (C : k = 0 \/ k = 1 \/ k = 2 \/ k = 3 \/ k = 4 \/ k = 5 \/ k = 6
              \/ k = 7 \/ k = 8 \/ k = 9) by lia.
  repeat (destruct C as [->|C]; [split; reflexivity|]). subst.
  split; reflexivity.
Qed.

Lemma parse_digits_step acc c s :
  isDigit c = true ->
  parse_digits acc (String c s)
  = parse_digits
      (Some (10 * match acc with Some a => a | None => 0 end + digitVal c)) s.
Proof.
  intros H. cbn [parse_digits]. rewrite H. reflexivity.
Qed.

Lemma parseInt_digits c s :
  isDigit c = true ->
  parseInt (String c s)
  = match parse_digits None (String c s) with
    | Some n => Num (1 * n)
    | None => NaN
    end.
Proof.
  intros H. apply digit_cases in H. simpl in H.
  repeat (destruct H as [<-|H]; [reflexivity|]). contradiction.
Qed.

Lemma parseInt_two_digits n :
  0 <= n <= 99 -> parseInt (two_digits n) = Num n.
Proof.
  intros H. unfold two_digits.
  destruct (digit_char_ok (n / 10)) as [D1 V1];
    [Z.div_mod_to_equations; lia|].
  destruct (digit_char_ok (n mod 10)) as [D2 V2];
    [Z.div_mod_to_equations; lia|].
  rewrite parseInt_digits by exact D1.
  rewrite !parse_digits_step by assumption.
  cbn [parse_digits]. rewrite V1, V2. f_equal.
  Z.div_mod_to_equations. lia.
Qed.

Lemma parseInt_four_digits n :
  0 <= n <= 9999 -> parseInt (four_digits n) = Num n.
Proof.
  intros H. unfold four_digits, two_digits.
  destruct (digit_char_ok (n / 1000)) as [D1 V1];
    [Z.div_mod_to_equations; lia|].
  destruct (digit_char_ok (n / 100 mod 10)) as [D2 V2];
    [Z.div_mod_to_equations; lia|].
  destruct (digit_char_ok (n mod 100 / 10)) as [D3 V3];
    [Z.div_mod_to_equations; lia|].
  destruct (digit_char_ok (n mod 100 mod 10)) as [D4 V4];
    [Z.div_mod_to_equations; lia|].
  rewrite parseInt_digits by exact D1.
  rewrite !parse_digits_step by assumption.
  cbn [parse_digits]. rewrite V1, V2, V3, V4. f_equal.
  Z.div_mod_to_equations. lia.
Qed.

Lemma two_digits_fit n :
  0 <= n <= 99 -> fits (Exactly 2 Digit) (two_digits n).
Proof.
  intros H. unfold two_digits, fits.
  destruct (digit_char_ok (n / 10)) as [D1 _];
    [Z.div_mod_to_equations; lia|].
  destruct (digit_char_ok (n mod 10)) as [D2 _];
    [Z.div_mod_to_equations; lia|].
  split; [reflexivity|]. cbn [all atom_ok]. rewrite D1, D2. reflexivity.
Qed.

Lemma four_digits_fit n :
  0 <= n <= 9999 -> fits (Exactly 4 Digit) (four_digits n).
Proof.
  intros H. unfold four_digits, fits.
  destruct (digit_char_ok (n / 1000)) as [D1 _];
    [Z.div_mod_to_equations; lia|].
  destruct (digit_char_ok (n / 100 mod 10)) as [D2 _];
    [Z.div_mod_to_equations; lia|].
  destruct (two_digits_fit (n mod 100)) as [L A];
    [Z.div_mod_to_equations; lia|].
  split; [cbn [String.length]; rewrite L; reflexivity|].
  cbn [all atom_ok]. cbn [atom_ok] in A. rewrite D1, D2, A. reflexivity.
Qed.

Lemma lower_letter c : isLower (lowerChar c) = true -> isLetter c = true.
Proof. by_char c. Qed.

Lemma lowercase_fits seg : forall w,
  toLowerCase seg = w -> all isLower w = true ->
  String.length seg = String.length w /\ all isLetter seg = true.
Proof.
  induction seg as [|c seg IH]; intros w <-; simpl; [auto|].
  intros H. apply andb_true_iff in H. destruct H as [Hc Hw].
  destruct (IH _ eq_refl Hw) as [-> ->].
  rewrite (lower_letter c Hc). auto.
Qed.

Lemma month_abbr_ok m :
  1 <= m <= 12 ->
  all isLower (month_abbr m) = true
  /\ String.length (month_abbr m) = 3%nat
  /\ monthNames (month_abbr m) = Num m.
Proof.
  intros H.
  assert (C : m = 1 \/ m = 2 \/ m = 3 \/ m = 4 \/ m = 5 \/ m = 6 \/ m = 7
              \/ m = 8 \/ m = 9 \/ m = 10 \/ m = 11 \/ m = 12) by lia.
  repeat (destruct C as [->|C]; [repeat split; reflexivity|]). subst.
  repeat split; reflexivity.
Qed.

Lemma month_full_ok m :
  1 <= m <= 12 ->
  all isLower (month_full m) = true
  /\ (m <> 5 -> (4 <= String.length (month_full m))%nat)
  /\ monthNames (month_full m) = Num m.
Proof.
  intros H.
  assert (C : m = 1 \/ m = 2 \/ m = 3 \/ m = 4 \/ m = 5 \/ m = 6 \/ m = 7
              \/ m = 8 \/ m = 9 \/ m = 10 \/ m = 11 \/ m = 12) by lia.
  repeat (destruct C as [->|C];
          [repeat split; try reflexivity; intros; simpl; lia|]).
  subst. repeat split; try reflexivity; intros; simpl; lia.
Qed.

Lemma tok_name_parts t :
  has_separator (tok_name t) = false
  /\ part_items (tok_name t) = [tok_item t]
  /\ part_parts (tok_name t) = [tok_part t]
  /\ forall s, part_separator s (tok_name t) = s.
Proof.
  destruct t; repeat split; reflexivity.
Qed.

Lemma sep_parts c :
  isSep c = true ->
  part_parts (String c "") = []
  /\ forall s, part_separator s (String c "") = String c "".
Proof.
  intros H. apply sep_cases in H. destruct H as [->| ->]; split; reflexivity.
Qed.

Lemma split_format sep t t' ts :
  isSep sep = true ->
  split_separators (format_of sep (t :: t' :: ts))
  = tok_name t :: String sep "" :: split_separators (format_of sep (t' :: ts)).
Proof.
  intros H. unfold format_of. cbn [map String.concat].
  change (String sep "" ++ ?x) with (String sep x).
  apply split_separators_app; auto. apply tok_name_parts.
Qed.

(** The artifacts compiled from tokens joined by one separator. *)
Lemma compile_format sep toks :
  isSep sep = true -> toks <> [] ->
  flat_map part_items (split_separators (format_of sep toks))
  = pattern_of sep toks
  /\ flat_map part_parts (split_separators (format_of sep toks))
     = map tok_part toks
  /\ forall init,
       fold_left part_separator (split_separators (format_of sep toks)) init
       = match toks with
         | _ :: _ :: _ => String sep ""
         | _ => init
         end.
Proof.
  intros Hsep. induction toks as [|t ts IH]; [congruence|]. intros _.
  destruct (tok_name_parts t) as (Hn & Hi & Hp & Hs).
  destruct ts as [|t' ts].
  - unfold format_of. cbn [map String.concat].
    rewrite (split_separators_no_sep _ Hn). cbn [flat_map fold_left].
    rewrite Hi, Hp, !app_nil_r. repeat split. intros init. apply Hs.
  - destruct IH as (IHi & IHp & IHs); [discriminate|].
    rewrite split_format by exact Hsep.
    destruct (sep_parts sep Hsep) as [Hsp Hss].
    cbn [flat_map fold_left].
    rewrite Hi, Hp, IHi, IHp, Hsp, (part_items_sep sep Hsep).
    repeat split. intros init. rewrite Hs, Hss, IHs.
    destruct ts; reflexivity.
Qed.

Lemma eat_fits n a : forall seg rest,
  String.length seg = n -> all (atom_ok a) seg = true ->
  eat n a (seg ++ rest) = Some rest.
Proof.
  induction n as [|n IH]; intros [|c seg] rest; simpl; try discriminate; auto.
  intros L A. apply andb_true_iff in A. destruct A as [-> A].
  apply IH; auto.
Qed.

Lemma eat_prefix n a : forall seg rest,
  (n <= String.length seg)%nat -> all (atom_ok a) seg = true ->
  exists seg', eat n a (seg ++ rest) = Some (seg' ++ rest)
               /\ all (atom_ok a) seg' = true.
Proof.
  induction n as [|n IH]; intros seg rest L A; simpl.
  - exists seg. auto.
  - destruct seg as [|c seg]; simpl in *; [lia|].
    apply andb_true_iff in A. destruct A as [-> A].
    apply IH; auto. lia.
Qed.

Lemma more_all a k : forall seg rest,
  all (atom_ok a) seg = true -> k rest = true ->
  more a k (seg ++ rest) = true.
Proof.
  induction seg as [|c seg IH]; intros rest A K.
  - simpl. destruct rest; simpl; rewrite K; reflexivity.
  - simpl in A. apply andb_true_iff in A. destruct A as [Hc A].
    cbn [append more]. rewrite Hc, (IH rest A K). apply orb_true_r.
Qed.

Lemma matches_fits i R seg rest :
  fits i seg -> matches R rest = true -> matches (i :: R) (seg ++ rest) = true.
Proof.
  destruct i as [n a|n a]; intros [L A] HR; cbn [matches].
  - rewrite (eat_fits n a seg rest L A). exact HR.
  - destruct (eat_prefix n a seg rest L A) as (seg' & -> & A').
    apply more_all; auto.
Qed.

Lemma matches_separator c R rest :
  matches (Exactly 1 (Lit c) :: R) (String c rest) = matches R rest.
Proof.
  cbn [matches eat atom_ok]. rewrite Ascii.eqb_refl. reflexivity.
Qed.

Lemma matches_pattern sep toks segs :
  Forall2 (fun t seg => fits (tok_item t) seg) toks segs -> toks <> [] ->
  matches (pattern_of sep toks ++ literal ".md")
    (String.concat (String sep "") segs ++ ".md") = true.
Proof.
  induction 1 as [|t seg ts segs Hfit Hrest IH]; [congruence|]. intros _.
  destruct Hrest as [|t' seg' ts segs Hfit' Hrest].
  - cbn [pattern_of String.concat app].
    apply matches_fits; auto.
  - cbn [pattern_of String.concat app] in *.
    change (String sep "" ++ ?x) with (String sep x).
    rewrite append_assoc. cbn [append].
    apply matches_fits; auto. rewrite matches_separator.
    apply IH. discriminate.
Qed.

Lemma all_app p a b : all p (a ++ b) = all p a && all p b.
Proof.
  induction a as [|c a IH]; simpl; auto. rewrite IH, andb_assoc. reflexivity.
Qed.

Lemma all_impl (p q : ascii -> bool) s :
  (forall c, p c = true -> q c = true) -> all p s = true -> all q s = true.
Proof.
  intros H. induction s as [|c s IH]; simpl; auto.
  intros A. apply andb_true_iff in A. destruct A as [Hc A].
  rewrite (H c Hc), IH; auto.
Qed.

Lemma all_concat p c segs :
  p c = true -> Forall (fun s => all p s = true) segs ->
  all p (String.concat (String c "") segs) = true.
Proof.
  intros Hc. induction 1 as [|seg segs Hs Hr IH]; [reflexivity|].
  destruct segs as [|seg' segs]; [exact Hs|].
  cbn [String.concat] in *. rewrite !all_app, Hs. simpl. rewrite Hc.
  exact IH.
Qed.

Lemma replace_no_dot s :
  all (no_char ".") s = true -> replace ".md" "" s = s.
Proof.
  induction s as [|c s IH]; [reflexivity|].
  cbn [all]. intros A. apply andb_true_iff in A. destruct A as [Hc A].
  cbn [replace prefix]. destruct (ascii_dec "." c) as [<-|_]; [discriminate|].
  rewrite IH; auto.
Qed.

Lemma split_at_text c t : all (no_char c) t = true ->
  split_at (String c "") 0 t = [t]
  /\ forall rest, split_at (String c "") 0 (t ++ String c rest)
                  = t :: split_at (String c "") 0 rest.
Proof.
  induction t as [|x t IH]; intros A.
  - split; [reflexivity|]. intros rest. cbn [append split_at prefix].
    destruct (ascii_dec c c); [|contradiction]. destruct rest; reflexivity.
  - cbn [all] in A. apply andb_true_iff in A. destruct A as [Hx A].
    destruct (IH A) as [E1 E2].
    assert (Hp : forall s, prefix (String c "") (String x s) = false).
    { intros s. cbn [prefix]. destruct (ascii_dec c x) as [->|_]; auto.
      unfold no_char in Hx. rewrite Ascii.eqb_refl in Hx. discriminate. }
    split; [|intros rest]; cbn [append split_at]; rewrite Hp.
    + rewrite E1. reflexivity.
    + rewrite E2. reflexivity.
Qed.

Lemma split_concat c segs :
  segs <> [] -> Forall (fun s => all (no_char c) s = true) segs ->
  split (String.concat (String c "") segs) (String c "") = segs.
Proof.
  intros Hne H. unfold split.
  induction H as [|seg segs Hs Hr IH]; [congruence|].
  destruct (split_at_text c seg Hs) as [E1 E2].
  destruct segs as [|seg' segs]; [exact E1|].
  cbn [String.concat] in *.
  change (String c "" ++ ?x) with (String c x).
  rewrite E2, IH; [reflexivity|discriminate].
Qed.

Lemma filter_all_true {A} (p : A -> bool) l :
  Forall (fun x => p x = true) l -> filter p l = l.
Proof.
  induction 1 as [|x l Hx _ IH]; simpl; [reflexivity|].
  rewrite Hx, IH. reflexivity.
Qed.

Lemma text_plain x :
  isText x = true -> isSep x = false /\ Ascii.eqb x "." = false.
Proof. by_char x. Qed.

Lemma text_no_char c x :
  isSep c = true \/ c = "."%char -> isText x = true -> no_char c x = true.
Proof.
  intros Hc Hx. destruct (text_plain x Hx) as [Hs Hd]. unfold no_char.
  destruct (Ascii.eqb_spec x c) as [->|]; [|reflexivity].
  destruct Hc as [Hc| ->]; [congruence|].
  rewrite Ascii.eqb_refl in Hd. discriminate.
Qed.

Lemma sep_no_dot c : isSep c = true -> no_char "." c = true.
Proof. by_char c. Qed.

Lemma fits_text t seg :
  fits (tok_item t) seg -> all isText seg = true /\ nonEmpty seg = true.
Proof.
  intros H. split.
  - destruct t; destruct H as [_ A]; revert A; apply all_impl;
      intros c Hc; unfold isText; cbn [atom_ok] in Hc; rewrite Hc;
      rewrite ?orb_true_r; reflexivity.
  - destruct seg; [|reflexivity].
    destruct t; destruct H as [L _]; simpl in L; lia.
Qed.

Lemma daysInMonth_max y m : daysInMonth y m <= 31.
Proof.
  unfold daysInMonth.
  repeat match goal with |- context [if ?c then _ else _] => destruct c end;
    lia.
Qed.

Ltac range_tests :=
  repeat match goal with
         | |- context [?a <? ?b] =>
             replace (a <? b) with false by (symmetry; apply Z.ltb_ge; lia)
         | |- context [?a >? ?b] =>
             replace (a >? b) with false
               by (symmetry; rewrite Z.gtb_ltb; apply Z.ltb_ge; lia)
         end.

(** What is written for a token fits the token's sub-pattern and is read
    back by the loop body as the component it was written from. *)
Lemma renders_read y m d t seg :
  valid_date y m d -> 1000 <= y <= 9999 -> readable (y, m, d) t ->
  renders (y, m, d) t seg ->
  fits (tok_item t) seg
  /\ forall f, parse_field (tok_part t) seg f
               = Some (set_field (y, m, d) (tok_type t) f).
Proof.
  intros [Hm Hd] Hy Hr Hs. pose proof (daysInMonth_max y (m - 1)) as Hmax.
  destruct t; cbn [renders readable tok_item] in *.
  - subst seg. split; [apply two_digits_fit; lia|]. intros f.
    unfold parse_field. cbn [tok_part type tok_type].
    rewrite parseInt_two_digits by lia. unfold lt, gt. cbn [ToNumber].
    range_tests. reflexivity.
  - subst seg. split; [apply two_digits_fit; lia|]. intros f.
    unfold parse_field. cbn [tok_part type tok_type token tok_name].
    eval_string_tests. cbn [orb].
    rewrite parseInt_two_digits by lia. unfold lt, gt. cbn [ToNumber].
    range_tests. reflexivity.
  - destruct Hs as [_ ->]. split; [apply four_digits_fit; lia|]. intros f.
    unfold parse_field. cbn [tok_part type tok_type token tok_name].
    eval_string_tests.
    rewrite parseInt_four_digits by lia. unfold lt, gt. cbn [ToNumber].
    range_tests. reflexivity.
  - subst seg.
    assert (Hv : 0 <= y mod 100 <= 99) by (Z.div_mod_to_equations; lia).
    split; [apply two_digits_fit; lia|]. intros f.
    unfold parse_field. cbn [tok_part type tok_type token tok_name].
    eval_string_tests.
    rewrite parseInt_two_digits by lia.
    replace (lt (Num (y mod 100)) 50) with (y mod 100 <? 50) by reflexivity.
    destruct (y mod 100 <? 50) eqn:E;
      [apply Z.ltb_lt in E|apply Z.ltb_ge in E];
      unfold add, lt, gt; cbn [ToNumber].
    + replace (2000 + y mod 100) with y by (Z.div_mod_to_equations; lia).
      range_tests. reflexivity.
    + replace (1900 + y mod 100) with y by (Z.div_mod_to_equations; lia).
      range_tests. reflexivity.
  - destruct (month_abbr_ok m Hm) as (Hl & Hlen & Hn).
    destruct (lowercase_fits seg _ Hs Hl) as [L A]. split.
    + split; [congruence|exact A].
    + intros f. unfold parse_field.
      cbn [tok_part type tok_type token tok_name]. eval_string_tests.
      cbn [orb]. rewrite Hs, Hn. cbn [truthy].
      replace (m =? 0) with false by (symmetry; apply Z.eqb_neq; lia).
      reflexivity.
  - destruct (month_full_ok m Hm) as (Hl & Hlen & Hn).
    destruct (lowercase_fits seg _ Hs Hl) as [L A]. split.
    + split; [rewrite L; auto|exact A].
    + intros f. unfold parse_field.
      cbn [tok_part type tok_type token tok_name]. eval_string_tests.
      cbn [orb]. rewrite Hs, Hn. cbn [truthy].
      replace (m =? 0) with false by (symmetry; apply Z.eqb_neq; lia).
      reflexivity.
Qed.

Lemma Forall2_impl_in {A B} (R Q : A -> B -> Prop) l l' :
  (forall a b, In a l -> R a b -> Q a b) ->
  Forall2 R l l' -> Forall2 Q l l'.
Proof.
  intros H F. induction F as [|a b l l' Hab _ IH]; constructor.
  - apply H; [left; reflexivity|exact Hab].
  - apply IH. intros a' b' Hin. apply H. right. exact Hin.
Qed.

Lemma Forall2_right {A B} (R : A -> B -> Prop) (P : B -> Prop) l l' :
  (forall a b, R a b -> P b) -> Forall2 R l l' -> Forall P l'.
Proof.
  intros H F. induction F; constructor; eauto.
Qed.

Lemma parse_parts_renders date toks segs :
  Forall2 (fun t seg =>
             nonEmpty seg = true
             /\ forall f, parse_field (tok_part t) seg f
                          = Some (set_field date (tok_type t) f)) toks segs ->
  forall pre f,
    parse_parts (map tok_part toks) (pre ++ segs) (List.length pre) f
    = Some (fields_after date toks f).
Proof.
  induction 1 as [|t seg toks segs [Hne Hf] _ IH]; intros pre f;
    [reflexivity|].
  cbn [map parse_parts].
  rewrite nth_error_app2, Nat.sub_diag by lia. cbn [nth_error].
  rewrite Hne, Hf. cbn [negb].
  specialize (IH (pre ++ [seg])%list (set_field date (tok_type t) f)).
  rewrite <- app_assoc, length_app in IH. cbn [app List.length] in IH.
  rewrite Nat.add_1_r in IH. exact IH.
Qed.

Lemma set_field_sets date ty f : field_set date ty (set_field date ty f).
Proof. destruct date as [[y m] d], ty; reflexivity. Qed.

Lemma set_field_keeps date ty ty' f :
  field_set date ty f -> field_set date ty (set_field date ty' f).
Proof. destruct date as [[y m] d], ty, ty'; simpl; auto. Qed.

Lemma fields_after_keeps date ty toks : forall f,
  field_set date ty f -> field_set date ty (fields_after date toks f).
Proof.
  unfold fields_after.
  induction toks as [|t toks IH]; intros f H; simpl; auto.
  apply IH, set_field_keeps, H.
Qed.

Lemma fields_after_sets date ty toks : forall f,
  has_field ty toks -> field_set date ty (fields_after date toks f).
Proof.
  induction toks as [|t toks IH]; intros f (t0 & Hin & Hty);
    [contradiction|].
  destruct Hin as [<-|Hin].
  - subst ty. apply (fields_after_keeps date (tok_type t) toks).
    apply set_field_sets.
  - apply (IH (set_field date (tok_type t) f)). exists t0. auto.
Qed.

Lemma two_fields_two_tokens toks :
  has_field day toks -> has_field month toks ->
  exists t t' ts, toks = t :: t' :: ts.
Proof.
  intros (a & Ha & Hta) (b & Hb & Htb).
  destruct toks as [|t [|t' ts]]; [contradiction| |eauto].
  destruct Ha as [<-|[]], Hb as [<-|[]]. congruence.
Qed.

(** The round trip in a zone whose calendar has every day: for every
    format of tokens joined by one separator character that has a day, a
    month and a year token, and every calendar date with a year of four
    digits (within 1950..2049 when the format has [YY], and not in May
    when it has [MMMM]), compiling the format and parsing the date written
    in it returns the same year, month and day. *)
Lemma round_trip_every_day sep toks y m d s :
  isSep sep = true ->
  has_field day toks -> has_field month toks -> has_field year toks ->
  valid_date y m d -> 1000 <= y <= 9999 ->
  Forall (readable (y, m, d)) toks ->
  date_string sep toks (y, m, d) s ->
  parse (format_of sep toks) s = Some (y, m, d).
Proof.
  intros Hsep Hday Hmonth Hyear Hvalid Hy Hread (segs & Hsegs & ->).
  destruct (two_fields_two_tokens toks Hday Hmonth) as (t0 & t1 & ts & Etoks).
  assert (Hne : toks <> []) by (rewrite Etoks; discriminate).
  destruct (compile_format sep toks Hsep Hne) as (Hitems & Hparts & Hseps).
  assert (Hall : Forall2 (fun t seg =>
                   fits (tok_item t) seg
                   /\ forall f, parse_field (tok_part t) seg f
                                = Some (set_field (y, m, d) (tok_type t) f))
                   toks segs).
  { revert Hsegs. apply Forall2_impl_in. intros t seg Hin Hr.
    apply renders_read; auto. rewrite Forall_forall in Hread. auto. }
  assert (Hfit : Forall2 (fun t seg => fits (tok_item t) seg) toks segs).
  { revert Hall. apply Forall2_impl_in. intros t seg _ [H _]. exact H. }
  assert (Htext : Forall (fun seg => all isText seg = true
                                     /\ nonEmpty seg = true) segs).
  { revert Hfit. apply Forall2_right. intros t seg. apply fits_text. }
  assert (Hsegne : segs <> []).
  { intros ->. inversion Hfit. congruence. }
  assert (Hclean : replace ".md" ""
                     (String.concat (String sep "") segs)
                   = String.concat (String sep "") segs).
  { apply replace_no_dot, all_concat; [apply sep_no_dot, Hsep|].
    revert Htext. apply Forall_impl. intros seg [A _]. revert A.
    apply all_impl. intros c. apply text_no_char. auto. }
  assert (Hsplit : segments (compile (format_of sep toks))
                     (String.concat (String sep "") segs) = segs).
  { unfold segments. rewrite Hclean, compile_separator, Hseps, Etoks.
    rewrite split_concat; auto.
    - apply filter_all_true. revert Htext. apply Forall_impl. tauto.
    - revert Htext. apply Forall_impl. intros seg [A _]. revert A.
      apply all_impl. intros c. apply text_no_char. auto. }
  unfold parse, parseDate. fold (segments (compile (format_of sep toks))
                                   (String.concat (String sep "") segs)).
  rewrite Hsplit, Hclean, compile_regex, Hitems, compile_parts, Hparts.
  rewrite (matches_pattern sep toks segs Hfit Hne). cbn [negb].
  rewrite (parse_parts_renders (y, m, d) toks segs) with (pre := []).
  2:{ revert Hall. apply Forall2_impl_in. intros t seg _ [Hf Hp].
      split; [apply (fits_text t seg Hf)|exact Hp]. }
  set (F := fields_after (y, m, d) toks _).
  pose proof (fields_after_sets (y, m, d) day toks
                {| f_day := Undefined; f_month := Undefined;
                   f_year := Undefined |} Hday) as Fd.
  pose proof (fields_after_sets (y, m, d) month toks
                {| f_day := Undefined; f_month := Undefined;
                   f_year := Undefined |} Hmonth) as Fm.
  pose proof (fields_after_sets (y, m, d) year toks
                {| f_day := Undefined; f_month := Undefined;
                   f_year := Undefined |} Hyear) as Fy.
  fold F in Fd, Fm, Fy. cbn [field_set] in Fd, Fm, Fy.
  rewrite Fd, Fm, Fy. destruct Hvalid as [Hm Hd].
  cbn [truthy]. unfold new_Date, add. cbn [ToNumber].
  replace (-1 + m) with (m - 1) by lia.
  replace (d =? 0) with false by (symmetry; apply Z.eqb_neq; lia).
  replace (m =? 0) with false by (symmetry; apply Z.eqb_neq; lia).
  replace (y =? 0) with false by (symmetry; apply Z.eqb_neq; lia).
  replace (d <=? daysInMonth y (m - 1)) with true
    by (symmetry; apply Z.leb_le; lia).
  cbn [negb orb strict_ne getFullYear getMonth getDate option_map ymd].
  replace (m - 1 + 1) with m by lia.
  rewrite !Z.eqb_refl.
  cbn [negb orb option_map]. unfold ymd.
  cbn [getFullYear getMonth getDate].
  replace (m - 1 + 1) with m by lia. reflexivity.
Qed.

(** *** The local time zone *)

(** In a zone whose calendar has every day, [parseDate_in] is
    [parseDate]. *)
Lemma parseDate_in_every_day info s :
  parseDate_in every_day info s = parseDate info s.
Proof.
  unfold parseDate_in, parseDate, new_Date_in, every_day.
  destruct (negb (matches (regex info) (replace ".md" "" s ++ ".md")));
    [reflexivity|].
  destruct (parse_parts _ _ _ _) as [f|]; [|reflexivity].
  destruct (new_Date _ _ _); reflexivity.
Qed.

(** What [parseDate] returns is the day its three locals hold. *)
Lemma parseDate_fields info s date :
  parseDate info s = Some date ->
  exists f,
    parse_parts (parts info)
      (filter nonEmpty (split (replace ".md" "" s) (separator info))) 0
      {| f_day := Undefined; f_month := Undefined; f_year := Undefined |}
    = Some f
    /\ matches (regex info) (replace ".md" "" s ++ ".md") = true
    /\ (negb (truthy (f_day f)) || negb (truthy (f_month f))
        || negb (truthy (f_year f))) = false
    /\ new_Date (f_year f) (add (-1) (f_month f)) (f_day f) = Some date
    /\ f_year f = Num (getFullYear date)
    /\ f_month f = Num (getMonth date + 1)
    /\ f_day f = Num (getDate date).
Proof.
  unfold parseDate.
  destruct (matches (regex info) (replace ".md" "" s ++ ".md")) eqn:Em;
    cbn [negb]; [|discriminate].
  destruct (parse_parts _ _ _ _) as [f|]; [|discriminate].
  destruct (negb (truthy (f_day f)) || negb (truthy (f_month f))
            || negb (truthy (f_year f))) eqn:Et; [discriminate|].
  destruct (new_Date _ _ _) as [date0|] eqn:En; [|discriminate].
  destruct (strict_ne (getFullYear date0) (f_year f)
            || strict_ne (getMonth date0 + 1) (f_month f)
            || strict_ne (getDate date0) (f_day f)) eqn:Ec; [discriminate|].
  intros [= <-]. exists f.
  apply orb_false_iff in Ec. destruct Ec as [Ec Ed].
  apply orb_false_iff in Ec. destruct Ec as [Ey Emo].
  assert (Hne : forall a b, strict_ne a b = false -> b = Num a).
  { intros a [| |z|]; cbn [strict_ne]; try discriminate.
    intros H. apply negb_false_iff, Z.eqb_eq in H. congruence. }
  repeat split; auto.
Qed.

(** In any zone, a day that the zone has is read as [parseDate] reads
    it. *)
Lemma parseDate_in_existing_day skipped info s date :
  parseDate info s = Some date ->
  skipped (getFullYear date) (getMonth date) (getDate date) = false ->
  parseDate_in skipped info s = Some date.
Proof.
  intros H Hs.
  destruct (parseDate_fields info s date H)
    as (f & Hp & Hm & Ht & Hn & Hy & Hmo & Hd).
  unfold parseDate_in, new_Date_in.
  rewrite Hm, Hp, Ht, Hn, Hs, Hy, Hmo, Hd. cbn [negb strict_ne].
  rewrite !Z.eqb_refl. reflexivity.
Qed.

(** In any zone, a day that the zone skipped is not read at all: the
    [Date] object reports the day after, and the comparison with the
    three locals fails. *)
Lemma parseDate_in_skipped_day skipped info s date :
  parseDate info s = Some date ->
  skipped (getFullYear date) (getMonth date) (getDate date) = true ->
  parseDate_in skipped info s = None.
Proof.
  intros H Hs.
  destruct (parseDate_fields info s date H)
    as (f & Hp & Hm & Ht & Hn & Hy & Hmo & Hd).
  unfold parseDate_in, new_Date_in.
  rewrite Hm, Hp, Ht, Hn, Hs, Hy, Hmo, Hd. cbn [negb strict_ne].
  unfold next_day.
  destruct (getDate date + 1 <=? daysInMonth (getFullYear date) (getMonth date)).
  - cbn [getFullYear getMonth getDate].
    replace (getDate date + 1 =? getDate date) with false
      by (symmetry; apply Z.eqb_neq; lia).
    rewrite !orb_true_r. reflexivity.
  - destruct (getMonth date =? 11) eqn:E11; cbn [getFullYear getMonth getDate].
    + replace (getFullYear date + 1 =? getFullYear date) with false
        by (symmetry; apply Z.eqb_neq; lia).
      reflexivity.
    + replace (getMonth date + 1 + 1 =? getMonth date + 1) with false
        by (symmetry; apply Z.eqb_neq; lia).
      rewrite orb_true_r. reflexivity.
Qed.

(** The parser of a zone, in terms of the calendar arithmetic alone: it
    reads what [parseDate] reads, less the days the zone skipped. *)
Lemma parseDate_in_calendar skipped info s :
  parseDate_in skipped info s
  = match parseDate info s with
    | Some date =>
        if skipped (getFullYear date) (getMonth date) (getDate date)
        then None else Some date
    | None => None
    end.
Proof.
  destruct (parseDate info s) as [date|] eqn:E.
  - destruct (skipped (getFullYear date) (getMonth date) (getDate date)) eqn:Es.
    + apply (parseDate_in_skipped_day skipped info s date E Es).
    + apply (parseDate_in_existing_day skipped info s date E Es).
  - revert E. unfold parseDate, parseDate_in, new_Date_in.
    destruct (negb (matches (regex info) (replace ".md" "" s ++ ".md")));
      [reflexivity|].
    destruct (parse_parts _ _ _ _) as [f|]; [|reflexivity].
    destruct (negb (truthy (f_day f)) || negb (truthy (f_month f))
              || negb (truthy (f_year f))); [reflexivity|].
    destruct (new_Date _ _ _) as [date|] eqn:En; [|reflexivity].
    destruct (skipped (getFullYear date) (getMonth date) (getDate date));
      [|intros E; exact E].
    destruct (f_year f) as [| |y|]; try discriminate En.
    destruct (f_month f) as [| |m|]; try discriminate En.
    destruct (f_day f) as [| |d|]; try discriminate En.
    unfold new_Date, add in En. cbn [ToNumber] in En.
    cbn [strict_ne].
    destruct (d <=? daysInMonth y (-1 + m)) eqn:Ed.
    { injection En as <-. cbn [getFullYear getMonth getDate].
      replace (-1 + m + 1) with m by lia. rewrite !Z.eqb_refl. discriminate. }
    intros _. unfold next_day.
    destruct (-1 + m =? 11) eqn:E11; injection En as <-;
      cbn [getFullYear getMonth getDate].
    + change (0 =? 11) with false.
      destruct (d - daysInMonth y (-1 + m) + 1 <=? daysInMonth (y + 1) 0);
        cbn [getFullYear getMonth getDate];
        replace (y + 1 =? y) with false
          by (symmetry; apply Z.eqb_neq; lia);
        reflexivity.
    + destruct (d - daysInMonth y (-1 + m) + 1
                <=? daysInMonth y (-1 + m + 1));
        [|destruct (-1 + m + 1 =? 11)];
        cbn [getFullYear getMonth getDate].
      * replace (-1 + m + 1 + 1 =? m) with false
          by (symmetry; apply Z.eqb_neq; lia).
        rewrite orb_true_r. reflexivity.
      * replace (y + 1 =? y) with false
          by (symmetry; apply Z.eqb_neq; lia).
        reflexivity.
      * replace (-1 + m + 1 + 1 + 1 =? m) with false
          by (symmetry; apply Z.eqb_neq; lia).
        rewrite orb_true_r. reflexivity.
Qed.

(** C3 (amended).  In every time zone, for every format of tokens joined
    by one separator character that has a day, a month and a year token,
    and every calendar date with a year of four digits (within 1950..2049
    when the format has [YY], and not in May when it has [MMMM]) that the
    zone's local calendar did not skip, compiling the format and parsing
    the date written in it returns the same year, month and day. *)
Theorem date_string_round_trip (skipped : TimeZone) sep toks y m d s :
  isSep sep = true ->
  has_field day toks -> has_field month toks -> has_field year toks ->
  valid_date y m d -> 1000 <= y <= 9999 ->
  Forall (readable (y, m, d)) toks ->
  skipped y (m - 1) d = false ->
  date_string sep toks (y, m, d) s ->
  parse_in skipped (format_of sep toks) s = Some (y, m, d).
Proof.
  intros Hsep Hday Hmonth Hyear Hvalid Hy Hread Hskip Hs.
  pose proof (round_trip_every_day sep toks y m d s
                Hsep Hday Hmonth Hyear Hvalid Hy Hread Hs) as H.
  unfold parse in H. unfold parse_in.
  destruct (parseDate (compile (format_of sep toks)) s) as [date|] eqn:E;
    [|discriminate].
  cbn [option_map] in H. unfold ymd in H. injection H as Ey Em Ed.
  rewrite (parseDate_in_existing_day skipped _ _ date E).
  - cbn [option_map]. unfold ymd. congruence.
  - rewrite Ey, Ed. replace (getMonth date) with (m - 1) by lia. exact Hskip.
Qed.

Lemma date_string_round_trip_witness :
  Pacific_Apia 2011 (12 - 1) 31 = false
  /\ parse_in Pacific_Apia (format_of "-" [DD; MMM; YY]) "31-Dec-11"
     = Some (2011, 12, 31).
Proof.
  split; [reflexivity|].
  apply (date_string_round_trip Pacific_Apia "-" [DD; MMM; YY] 2011 12 31
           "31-Dec-11").
  - reflexivity.
  - exists DD. simpl. auto.
  - exists MMM. simpl. auto.
  - exists YY. simpl. auto.
  - split; [lia|]. split; [lia|]. vm_compute. discriminate.
  - lia.
  - repeat constructor; simpl; lia.
  - reflexivity.
  - exists ["31"; "Dec"; "11"]. split; [|reflexivity].
    repeat constructor; reflexivity.
Defined.

(** C3 as stated fails.  Written with [YY], 15 July 1930 is [15-07-30],
    which the century rule reads as 2030; written with [YYYY], 15 July 999
    is [15-07-0999], which the year range check rejects; written with
    [MMMM], 15 May 2019 is [15-May-2019], which the sub-pattern of four or
    more letters does not match.  In Pacific/Apia 30 December 2011 is
    [30-12-2011], which the check against the [Date] object rejects: the
    object reports the 31st.  A format mixing both separators splits the
    name on the last one only, and a format without separator compiles to
    no token at all. *)
Lemma round_trip_fails :
  (date_string "-" [DD; MM; YY] (1930, 7, 15) "15-07-30"
   /\ valid_date 1930 7 15
   /\ parse (format_of "-" [DD; MM; YY]) "15-07-30" = Some (2030, 7, 15))
  /\ (date_string "-" [DD; MM; YYYY] (999, 7, 15) "15-07-0999"
      /\ valid_date 999 7 15
      /\ parse (format_of "-" [DD; MM; YYYY]) "15-07-0999" = None)
  /\ (date_string "-" [DD; MMMM; YYYY] (2019, 5, 15) "15-May-2019"
      /\ valid_date 2019 5 15
      /\ parse (format_of "-" [DD; MMMM; YYYY]) "15-May-2019" = None)
  /\ (date_string "-" [DD; MM; YYYY] (2011, 12, 30) "30-12-2011"
      /\ valid_date 2011 12 30
      /\ parse_in Pacific_Apia (format_of "-" [DD; MM; YYYY]) "30-12-2011"
         = None)
  /\ parse "DD-MM/YYYY" "15-07/2019" = None
  /\ parse "DDMMMYYYY" "15Jul2019" = None.
Proof.
  repeat split; try reflexivity; try lia; try (vm_compute; discriminate).
  - exists ["15"; "07"; "30"]. split; [|reflexivity].
    repeat constructor; reflexivity.
  - exists ["15"; "07"; "0999"]. split; [|reflexivity].
    repeat constructor; try reflexivity; lia.
  - exists ["15"; "May"; "2019"]. split; [|reflexivity].
    repeat constructor; try reflexivity; lia.
  - exists ["30"; "12"; "2011"]. split; [|reflexivity].
    repeat constructor; try reflexivity; lia.
Qed.

(** ** Further properties of the settings code *)

(** X1.  Whatever [data.json] holds, [onload] leaves a date format that is
    a string with a recognized token, keeps the other three settings as
    loaded, and the compiler then returns for that format without ever
    entering its [catch] block. *)
Theorem onload_leaves_compilable_format data :
  exists f,
    dateFormat (onload data) = SStr f
    /\ isValidDateFormat (SStr f) = true
    /\ targetFolder (onload data)
       = targetFolder (loadSettings default_settings data)
    /\ useYearMonthSubfolders (onload data)
       = useYearMonthSubfolders (loadSettings default_settings data)
    /\ showSummaryNotification (onload data)
       = showSummaryNotification (loadSettings default_settings data)
    /\ forall depth, getDateFormatInfo (S depth) (onload data) = Ok (compile f).
Proof.
  unfold onload.
  destruct (isValidDateFormat (dateFormat (loadSettings default_settings data)))
    eqn:E; cbn [negb].
  - destruct (dateFormat (loadSettings default_settings data)) as [| | | |f|]
      eqn:Ef; try discriminate.
    exists f. repeat split; auto. intros depth.
    rewrite (getDateFormatInfo_string depth _ f Ef).
    destruct (f =? "")%string eqn:Ee; [|reflexivity].
    simpl in E. rewrite Ee in E. discriminate.
  - exists default_dateFormat. repeat split.
Qed.

(** X2.  Settings written by [saveSettings] and read back by [onload] on
    the next start are the same settings when their date format is valid;
    otherwise only the date format differs, replaced by the default. *)
Theorem settings_survive_restart st :
  onload (Some (saveSettings st))
  = if isValidDateFormat (dateFormat st) then st
    else set_dateFormat st (SStr default_dateFormat).
Proof.
  destruct st as [tf sh df sub]. unfold onload, saveSettings, loadSettings.
  cbn [targetFolder showSummaryNotification dateFormat useYearMonthSubfolders
       p_targetFolder p_showSummaryNotification p_dateFormat
       p_useYearMonthSubfolders or_default].
  destruct df as [| |b|z|f|]; try reflexivity.
  cbn [or_default dateFormat].
  destruct (isValidDateFormat (SStr f)); reflexivity.
Qed.

Lemma prefix_trans a : forall b s,
  prefix a b = true -> prefix b s = true -> prefix a s = true.
Proof.
  induction a as [|x a IH]; intros b s Hab Hbs; [destruct s; reflexivity|].
  destruct b as [|y b]; [discriminate|]. destruct s as [|z s]; [discriminate|].
  simpl in *. destruct (ascii_dec x y) as [->|]; [|discriminate].
  destruct (ascii_dec y z) as [->|]; [|discriminate]. eauto.
Qed.

Lemma includes_prefix a b : prefix a b = true ->
  forall s, includes s b = true -> includes s a = true.
Proof.
  intros Hab. induction s as [|c s IH]; cbn [includes]; intros H.
  - rewrite orb_false_r in *. eapply prefix_trans; eauto.
  - apply orb_true_iff in H. destruct H as [H|H].
    + rewrite (prefix_trans a b _ Hab H). reflexivity.
    + rewrite (IH H). apply orb_true_r.
Qed.

(** X3.  [isValidDateFormat] accepts exactly the strings in which [DD],
    [MM] or [YY] occurs somewhere (the longer alternatives add nothing),
    whatever surrounds them, and rejects every value that is not a
    string. *)
Theorem valid_format_has_DD_MM_or_YY v :
  isValidDateFormat v = true
  <-> exists f, v = SStr f
                /\ (includes f "DD" = true \/ includes f "MM" = true
                    \/ includes f "YY" = true).
Proof.
  split.
  - destruct v as [| | | |f|]; simpl; try discriminate.
    destruct (f =? "")%string; [discriminate|]. intros H. exists f.
    split; [reflexivity|].
    repeat (apply orb_true_iff in H; destruct H as [H|H]); auto;
      try discriminate.
    + right. right. revert H. apply includes_prefix. reflexivity.
    + right. left. revert H. apply includes_prefix. reflexivity.
    + right. left. revert H. apply includes_prefix. reflexivity.
  - intros (f & -> & H). simpl.
    destruct f as [|c f]; [simpl in H; intuition discriminate|].
    cbn [String.eqb]. cbn [existsb].
    destruct H as [->|[->| ->]]; rewrite ?orb_true_r; reflexivity.
Qed.

(** ** Further properties of the format compiler *)

(** X4.  Compiling tokens joined by one separator character yields the
    tokens' sub-patterns in order with the literal separator between them
    and the [.md] suffix at the end, one part per token in the same order,
    and that separator (none when there is a single token). *)
Theorem compile_joined_tokens sep toks :
  isSep sep = true -> toks <> [] ->
  regex (compile (format_of sep toks))
  = (pattern_of sep toks ++ literal ".md")%list
  /\ parts (compile (format_of sep toks)) = map tok_part toks
  /\ separator (compile (format_of sep toks))
     = match toks with
       | _ :: _ :: _ => String sep ""
       | _ => ""
       end.
Proof.
  intros Hsep Hne.
  destruct (compile_format sep toks Hsep Hne) as (Hi & Hp & Hs).
  rewrite compile_regex, compile_parts, compile_separator, Hi, Hp, Hs.
  auto.
Qed.

Lemma compile_joined_tokens_witness :
  regex (compile "YYYY/MM/DD")
  = [Exactly 4 Digit; Exactly 1 (Lit "/"); Exactly 2 Digit;
     Exactly 1 (Lit "/"); Exactly 2 Digit;
     Exactly 1 (Lit "."); Exactly 1 (Lit "m"); Exactly 1 (Lit "d")]
  /\ parts (compile "YYYY/MM/DD") = [tok_part YYYY; tok_part MM; tok_part DD]
  /\ separator (compile "YYYY/MM/DD") = "/".
Proof.
  refine (compile_joined_tokens "/" [YYYY; MM; DD] eq_refl _). discriminate.
Defined.

Lemma length_app (a b : string) :
  String.length (a ++ b) = (String.length a + String.length b)%nat.
Proof.
  induction a as [|x a IH]; simpl; [reflexivity|]. rewrite IH. reflexivity.
Qed.

Lemma last_separator_text t : has_separator t = false ->
  forall acc r, last_separator acc (t ++ r) = last_separator acc r.
Proof.
  induction t as [|x t IH]; intros H acc r; [reflexivity|].
  simpl in H. apply orb_false_iff in H. destruct H as [Hx Ht].
  cbn [append last_separator]. rewrite Hx. apply IH, Ht.
Qed.

Lemma part_separator_text acc t :
  has_separator t = false -> part_separator acc t = acc.
Proof.
  intros H. unfold part_separator. rewrite H. destruct (tokens t); reflexivity.
Qed.

Lemma fold_part_separator n : forall f acc,
  (String.length f <= n)%nat ->
  fold_left part_separator (split_separators f) acc = last_separator acc f.
Proof.
  induction n as [|n IH]; intros f acc Hlen.
  - destruct f; [reflexivity|simpl in Hlen; lia].
  - destruct (split_separators_cases f)
      as [[Hf ->]|(t & c & r & -> & Ht & Hc & ->)].
    + cbn [fold_left]. rewrite (part_separator_text acc f Hf).
      clear - Hf. revert acc.
      induction f as [|x f IHf]; intros acc; [reflexivity|].
      simpl in Hf. apply orb_false_iff in Hf. destruct Hf as [Hx Hf].
      cbn [last_separator]. rewrite Hx. apply IHf, Hf.
    + cbn [fold_left]. rewrite (part_separator_text acc t Ht).
      destruct (sep_parts c Hc) as [_ ->].
      rewrite (last_separator_text t Ht). cbn [last_separator]. rewrite Hc.
      apply IH. rewrite length_app in Hlen. simpl in Hlen. lia.
Qed.

(** X5.  The separator [parseDate] splits on is the last separator
    character of the format, whichever of [-] and [/] came before it, and
    the empty string when the format has none. *)
Theorem separator_is_last_seen f :
  separator (compile f) = last_separator "" f
  /\ (separator (compile f) = "" <-> has_separator f = false).
Proof.
  assert (E : separator (compile f) = last_separator "" f).
  { rewrite compile_separator. apply (fold_part_separator (String.length f)).
    lia. }
  split; [exact E|]. rewrite E. clear E.
  assert (G : forall s acc,
            last_separator acc s = ""
            <-> (acc = "" /\ has_separator s = false)).
  { induction s as [|c s IH]; intros acc; simpl.
    - tauto.
    - rewrite IH. destruct (isSep c); simpl; split; intros [H1 H2];
        try discriminate; auto. }
  rewrite G. tauto.
Qed.

Lemma eat_split n a : forall s s',
  eat n a s = Some s' ->
  exists pre, s = pre ++ s' /\ all (atom_ok a) pre = true.
Proof.
  induction n as [|n IH]; intros s s'; simpl.
  - intros H; injection H as <-. exists "". auto.
  - destruct s as [|c s]; [discriminate|].
    destruct (atom_ok a c) eqn:E; [|discriminate]. intros H.
    destruct (IH _ _ H) as (pre & -> & A).
    exists (String c pre). simpl. rewrite E, A. auto.
Qed.

Lemma more_split a k : forall s,
  more a k s = true ->
  exists pre s', s = pre ++ s' /\ all (atom_ok a) pre = true /\ k s' = true.
Proof.
  induction s as [|c s IH]; simpl; intros H.
  - rewrite orb_false_r in H. exists "", "". auto.
  - apply orb_true_iff in H. destruct H as [H|H].
    + exists "", (String c s). auto.
    + apply andb_true_iff in H. destruct H as [E H].
      destruct (IH H) as (pre & s' & -> & A & K).
      exists (String c pre), s'. simpl. rewrite E, A. auto.
Qed.

Lemma matches_plain items : Forall plain_item items ->
  forall s, matches (items ++ literal ".md") s = true ->
  exists stem, s = stem ++ ".md" /\ all (no_char ".") stem = true.
Proof.
  induction 1 as [|i items Hi _ IH]; intros s H.
  - apply matches_literal_md in H. exists "". auto.
  - cbn [app matches] in H. destruct i as [n a|n a]; simpl in Hi;
      destruct (eat n a s) as [s1|] eqn:E; try discriminate;
      apply eat_split in E; destruct E as (pre & -> & A).
    + destruct (IH _ H) as (stem & -> & S).
      exists (pre ++ stem). rewrite append_assoc, all_app, S.
      rewrite (all_impl _ _ pre Hi A). auto.
    + apply more_split in H. destruct H as (pre2 & s2 & -> & A2 & H).
      destruct (IH _ H) as (stem & -> & S).
      exists (pre ++ pre2 ++ stem). rewrite !append_assoc, !all_app, S.
      rewrite (all_impl _ _ pre Hi A), (all_impl _ _ pre2 Hi A2). auto.
Qed.

Lemma split_separators_parts s :
  exists h rest, split_separators s = h :: rest
                 /\ has_separator h = false /\ Forall split_part rest.
Proof.
  induction s as [|a s (h & rest & E & Hh & Hr)]; simpl.
  - exists "", []. auto.
  - destruct (isSep a) eqn:Ha.
    + exists "", (String a "" :: split_separators s). repeat split; auto.
      constructor; [right; eauto|]. rewrite E. constructor; [left|]; auto.
    + rewrite E. exists (String a h), rest. simpl. rewrite Ha. auto.
Qed.

Lemma digit_plain c : isDigit c = true -> no_char "." c = true.
Proof. by_char c. Qed.

Lemma letter_plain c : isLetter c = true -> no_char "." c = true.
Proof. by_char c. Qed.

Lemma literal_plain s :
  all (no_char ".") s = true -> Forall plain_item (literal s).
Proof.
  unfold literal. induction s as [|a s IH]; simpl; [constructor|].
  intros H. apply andb_true_iff in H. destruct H as [Ha Hs].
  constructor; auto. simpl. intros c Hc. apply Ascii.eqb_eq in Hc. congruence.
Qed.

Lemma part_items_plain p : split_part p -> Forall plain_item (part_items p).
Proof.
  intros [Hp|(c & Hc & ->)].
  - unfold part_items. rewrite Hp. unfold tokens.
    repeat match goal with
           | |- context [if ?c then _ else _] => destruct c
           end; simpl re;
      try (apply literal_plain; reflexivity);
      repeat constructor; simpl;
      intros c Hc; auto using digit_plain, letter_plain.
  - rewrite (part_items_sep c Hc). repeat constructor. simpl.
    intros x Hx. apply Ascii.eqb_eq in Hx. subst x. apply sep_no_dot, Hc.
Qed.

Lemma compiled_items_plain f :
  Forall plain_item (flat_map part_items (split_separators f)).
Proof.
  destruct (split_separators_parts f) as (h & rest & -> & Hh & Hr).
  cbn [flat_map]. apply Forall_app. split.
  - apply part_items_plain. left. exact Hh.
  - induction Hr as [|p rest Hp _ IH]; simpl; [constructor|].
    apply Forall_app. split; [apply part_items_plain, Hp|exact IH].
Qed.

Lemma replace_suffix stem :
  all (no_char ".") stem = true -> replace ".md" "" (stem ++ ".md") = stem.
Proof.
  induction stem as [|c stem IH]; [reflexivity|].
  cbn [all]. intros A. apply andb_true_iff in A. destruct A as [Hc A].
  cbn [append replace prefix].
  destruct (ascii_dec "." c) as [<-|_]; [discriminate|].
  rewrite IH; auto.
Qed.

(** X6.  Whatever the format, a name the compiled pattern matches is a
    stem without any dot followed by [.md], so the [replace] of the first
    [.md] the passes apply to a matched file name strips exactly the
    extension. *)
Theorem matched_name_stem f nm :
  matches (regex (compile f)) nm = true ->
  exists stem, nm = stem ++ ".md"
               /\ all (no_char ".") stem = true
               /\ replace ".md" "" nm = stem.
Proof.
  rewrite compile_regex. intros H.
  apply matches_plain in H; [|apply compiled_items_plain].
  destruct H as (stem & -> & S). exists stem.
  repeat split; auto using replace_suffix.
Qed.

Lemma matched_name_stem_witness :
  exists stem, "15-07-2019.md" = stem ++ ".md"
               /\ all (no_char ".") stem = true
               /\ replace ".md" "" "15-07-2019.md" = stem.
Proof.
  apply (matched_name_stem "DD-MM-YYYY" "15-07-2019.md"). reflexivity.
Defined.

(** ** Further properties of the parser *)

Lemma parse_field_keeps ty p seg f f' :
  type p <> Some ty -> parse_field p seg f = Some f' ->
  get_field ty f' = get_field ty f.
Proof.
  unfold parse_field. intros Ht.
  destruct (type p) as [[| |]|];
    repeat match goal with
           | |- context [if ?c then _ else _] => destruct c
           end;
    intros H; try discriminate; injection H as <-;
    destruct ty; try reflexivity; congruence.
Qed.

Lemma parse_parts_keeps ty ps : forall segs off f f',
  (forall p, In p ps -> type p <> Some ty) ->
  parse_parts ps segs off f = Some f' ->
  get_field ty f' = get_field ty f.
Proof.
  induction ps as [|p ps IH]; intros segs off f f' Hty; simpl.
  - intros H; injection H as <-. reflexivity.
  - destruct (nth_error segs off) as [seg|]; [|discriminate].
    destruct (negb (nonEmpty seg)); [discriminate|].
    destruct (parse_field p seg f) as [f1|] eqn:E; [|discriminate].
    intros H. apply IH in H; [|intros q Hq; apply Hty; right; exact Hq].
    rewrite H. eapply parse_field_keeps; eauto. apply Hty. left. reflexivity.
Qed.

(** X7.  Under a format none of whose parts is a day (or a month, or a
    year) field, the parser returns null for every string, and so neither
    pass moves any file. *)
Theorem format_missing_a_field info ty :
  (forall p, In p (parts info) -> type p <> Some ty) ->
  (forall s, parseDate info s = None)
  /\ forall depth st today v file,
       getDateFormatInfo depth st = Ok info ->
       ~ moved_in (moveOldDailyNotes depth st today v) file
       /\ ~ moved_in (relocateOldNotes depth st v) file.
Proof.
  intros Hty.
  assert (Hnone : forall s, parseDate info s = None).
  { intros s. unfold parseDate.
    destruct (negb (matches (regex info) (replace ".md" "" s ++ ".md")));
      [reflexivity|].
    destruct (parse_parts _ _ _ _) as [f|] eqn:E; [|reflexivity].
    apply (parse_parts_keeps ty) in E; [|exact Hty].
    replace (negb (truthy (f_day f)) || negb (truthy (f_month f))
             || negb (truthy (f_year f))) with true; [reflexivity|].
    destruct ty; simpl in E; rewrite E; simpl; rewrite ?orb_true_r;
      reflexivity. }
  split; [exact Hnone|].
  intros depth st today v file Hinfo.
  apply (no_date_no_move depth st info); auto.
Qed.

Lemma format_missing_a_field_witness :
  parseDate (compile "DD-MM") "15-07" = None.
Proof.
  refine (proj1 (format_missing_a_field (compile "DD-MM") year _) "15-07").
  intros p [<-|[<-|[]]]; discriminate.
Defined.

(** X8.  Every date [parseDate] returns, under any format and for any
    string, is a real calendar date with a year from 1000 to 9999: the
    month is from 1 to 12 and the day exists in that month of that year
    (29 February only in leap years). *)
Theorem parsed_date_is_calendar_date info s date :
  parseDate info s = Some date ->
  1000 <= getFullYear date <= 9999
  /\ 1 <= getMonth date + 1 <= 12
  /\ 1 <= getDate date <= daysInMonth (getFullYear date) (getMonth date)
  /\ (getMonth date = 1 -> getDate date = 29 ->
      isLeap (getFullYear date) = true).
Proof.
  intros H. destruct (parseDate_sound info s date H) as (Hy & Hm & Hd).
  replace (getMonth date + 1 - 1) with (getMonth date) in Hd by lia.
  repeat split; try lia.
  intros E1 E29. rewrite E1 in Hd. unfold daysInMonth in Hd.
  replace (1 =? 1) with true in Hd by reflexivity.
  destruct (isLeap (getFullYear date)); [reflexivity|lia].
Qed.

Lemma parsed_date_is_calendar_date_witness :
  1000 <= 2020 <= 9999
  /\ 1 <= 1 + 1 <= 12
  /\ 1 <= 29 <= daysInMonth 2020 1
  /\ (1 = 1 -> 29 = 29 -> isLeap 2020 = true).
Proof.
  exact (parsed_date_is_calendar_date (compile "DD-MM-YYYY") "29-02-2020"
           {| getFullYear := 2020; getMonth := 1; getDate := 29 |} eq_refl).
Defined.

(** X9.  A single field that fails its own check makes [parseDate] return
    null, whatever the other fields hold: a numeric day outside 1..31, a
    numeric month outside 1..12, a year that after the century rule is
    outside 1000..9999, or a month name the lookup does not find. *)
Theorem rejected_field_gives_null info s i p seg :
  nth_error (parts info) i = Some p ->
  nth_error (segments info s) i = Some seg ->
  (exists n, parseInt seg = Num n /\ type p = Some day /\ (n < 1 \/ 31 < n))
  \/ (exists n, parseInt seg = Num n /\ type p = Some month
                /\ (token p =? "MMM")%string = false
                /\ (token p =? "MMMM")%string = false
                /\ (n < 1 \/ 12 < n))
  \/ (exists n, parseInt seg = Num n /\ type p = Some year
                /\ (let y := if (token p =? "YY")%string
                             then resolve_century n else n in
                    y < 1000 \/ 9999 < y))
  \/ (type p = Some month
      /\ (token p =? "MMM")%string || (token p =? "MMMM")%string = true
      /\ monthNames (toLowerCase seg) = Undefined) ->
  parseDate info s = None.
Proof.
  intros Hp Hseg H. apply (parseDate_rejects_field info s i p seg Hp Hseg).
  destruct H as [(n & Hn & Ht & Hr)|[(n & Hn & Ht & H3 & H4 & Hr)
                |[(n & Hn & Ht & Hr)|(Ht & Hn & Hu)]]].
  - eapply day_out_of_range; eauto.
  - eapply month_out_of_range; eauto.
  - eapply year_out_of_range; eauto.
  - eapply month_name_unknown; eauto.
Qed.

Lemma rejected_field_gives_null_witness :
  parseDate (compile "DD-MMM-YYYY") "15-Foo-2019" = None.
Proof.
  apply (rejected_field_gives_null (compile "DD-MMM-YYYY") "15-Foo-2019" 1
           {| token := "MMM"; type := Some month |} "Foo");
    [reflexivity|reflexivity|].
  right. right. right. repeat split; reflexivity.
Defined.

(** ** Further properties of the two passes *)

Lemma ensure_all_shape fs qs : forall dl,
  exists created,
    fold_left (fun acc q => ensure_folder fs q acc) qs dl
    = ((fst dl ++ created)%list, (snd dl ++ map CreatedFolder created)%list)
    /\ forall p, In p created ->
                 In p qs /\ exists_path (fst dl) fs p = false.
Proof.
  induction qs as [|q qs IH]; intros dl; simpl.
  - exists []. simpl. rewrite !app_nil_r. destruct dl. split; [reflexivity|].
    intros p [].
  - destruct (IH (ensure_folder fs q dl)) as (created & -> & Hc).
    unfold ensure_folder in *.
    destruct (exists_path (fst dl) fs q) eqn:E.
    + exists created. split; [reflexivity|]. intros p Hp.
      destruct (Hc p Hp). auto.
    + exists (q :: created). simpl. rewrite <- !app_assoc. simpl.
      split; [reflexivity|]. intros p [<-|Hp]; [auto|].
      destruct (Hc p Hp) as [Hin Hex]. split; [auto|].
      simpl in Hex. unfold exists_path in *. rewrite has_app in Hex.
      apply orb_false_iff in Hex. destruct Hex as [Hex ->].
      apply orb_false_iff in Hex. destruct Hex as [-> _]. reflexivity.
Qed.

(** What one iteration of the archive loop does, case by case. *)
Lemma archive_file_shape st info todayISO aside rest s file :
  let s' := archive_file st info todayISO aside rest s file in
  let fs := (visited s ++ file :: rest ++ aside)%list in
  exists created file' extra,
    dirs s' = (dirs s ++ created)%list
    /\ visited s' = (visited s ++ [file'])%list
    /\ log s' = (log s ++ map CreatedFolder created ++ extra)%list
    /\ (forall p, In p created ->
          exists d, eligible info todayISO file = Some d
                    /\ In p (dest_folders st d)
                    /\ exists_path (dirs s) fs p = false)
    /\ ((extra = [] /\ file' = file
         /\ (counts s' = counts s
             \/ counts s' = bump_skipped (bump_found (counts s))))
        \/ (extra = [InvalidDate file] /\ file' = file
            /\ counts s' = bump_skipped (bump_found (counts s)))
        \/ (exists d,
              eligible info todayISO file = Some d
              /\ startsWith (path file) (targetFolder st ++ "/") = false
              /\ ((extra = [RenameFailed file (dest_path st d file)]
                   /\ file' = file
                   /\ counts s' = bump_found (counts s)
                   /\ exists_path (dirs s') fs (dest_path st d file) = true)
                  \/ (extra = [Renamed file (dest_path st d file)]
                      /\ file' = set_path file (dest_path st d file)
                      /\ counts s' = bump_moved (bump_found (counts s))
                      /\ exists_path (dirs s') fs (dest_path st d file)
                         = false)))).
Proof.
  unfold archive_file, eligible.
  destruct ((extension file =? "md")%string && matches (regex info) (name file)).
  2:{ exists [], file, []. simpl. rewrite !app_nil_r.
      repeat split; auto. intros p []. }
  destruct (parseDate info (replace ".md" "" (name file))) as [d|].
  2:{ exists [], file, [InvalidDate file]. simpl. rewrite !app_nil_r.
      repeat split; auto. intros p []. }
  destruct (negb (iso d =? todayISO)%string).
  2:{ exists [], file, []. simpl. rewrite !app_nil_r.
      repeat split; auto. intros p []. }
  rewrite destination_eq.
  destruct (ensure_all_shape (visited s ++ file :: rest ++ aside)
              (dest_folders st d) (dirs s, log s)) as (created & -> & Hc).
  cbn [fst snd].
  assert (Hcr : forall p, In p created ->
            exists d0, Some d = Some d0 /\ In p (dest_folders st d0)
                       /\ exists_path (dirs s)
                            (visited s ++ file :: rest ++ aside) p = false).
  { intros p Hp. exists d. destruct (Hc p Hp). auto. }
  destruct (startsWith (path file) (targetFolder st ++ "/")) eqn:Eu; cbn [negb].
  - exists created, file, []. simpl. rewrite !app_nil_r. repeat split; auto.
  - unfold try_rename.
    destruct (exists_path (dirs s ++ created)
                (visited s ++ file :: rest ++ aside) (dest_path st d file))
      eqn:Ex; cbn [dirs visited log counts].
    + exists created, file, [RenameFailed file (dest_path st d file)].
      rewrite <- app_assoc. repeat split; auto.
      right. right. exists d. repeat split; auto.
    + exists created, (set_path file (dest_path st d file)),
        [Renamed file (dest_path st d file)].
      rewrite <- app_assoc. repeat split; auto.
      right. right. exists d. repeat split; auto.
Qed.

Lemma count_app p l l' : count p (l ++ l') = (count p l + count p l')%nat.
Proof.
  unfold count. rewrite filter_app, List.length_app. reflexivity.
Qed.

Lemma count_created p created :
  (forall q, p (CreatedFolder q) = false) ->
  count p (map CreatedFolder created) = 0%nat.
Proof.
  intros H. unfold count. induction created as [|q created IH]; simpl; auto.
  rewrite H. exact IH.
Qed.

Lemma start_log_counts v target :
  count is_renamed (log (start v target)) = 0%nat
  /\ count is_failed (log (start v target)) = 0%nat.
Proof.
  unfold start, ensure_folder.
  destruct (exists_path (fst (folders v, [])) (files v) target);
    split; reflexivity.
Qed.

(** The file table after the archive loop: one entry per file visited,
    with the same name and extension. *)
Lemma archive_pass_names st info todayISO aside : forall todo s,
  let s' := for_each (archive_file st info todayISO aside) todo s in
  map name (visited s') = (map name (visited s) ++ map name todo)%list
  /\ map extension (visited s')
     = (map extension (visited s) ++ map extension todo)%list.
Proof.
  induction todo as [|file rest IH]; intros s; simpl.
  - rewrite !app_nil_r. auto.
  - destruct (IH (archive_file st info todayISO aside rest s file))
      as [-> ->].
    destruct (archive_file_shape st info todayISO aside rest s file)
      as (created & file' & extra & _ & -> & _ & _ & H).
    assert (name file' = name file /\ extension file' = extension file)
      as [En Ee].
    { destruct H as [(_ & -> & _)|[(_ & -> & _)
                    |(d & _ & _ & [(_ & -> & _)|(_ & -> & _)])]]; auto. }
    rewrite !map_app. simpl. rewrite En, Ee, <- !app_assoc. auto.
Qed.

(** X10.  The counters of the archive pass account for every file it
    found: [moved] is the number of renames done, and [found] is [moved]
    plus [skipped] plus the number of renames that failed; no more files
    are found than the vault holds. *)
Theorem archive_tally_accounts depth st today v :
  let r := moveOldDailyNotes depth st today v in
  moved (tally r) = count is_renamed (events r)
  /\ found (tally r)
     = (moved (tally r) + skipped (tally r) + count is_failed (events r))%nat
  /\ (found (tally r) <= List.length (files v))%nat.
Proof.
  unfold moveOldDailyNotes.
  destruct (getDateFormatInfo depth st) as [info|]; simpl;
    [|repeat split; lia].
  pose proof (archive_pass_names st info (iso today) [] (files v)
                (start v (targetFolder st))) as [Hn _].
  rewrite start_visited in Hn. simpl in Hn.
  apply (f_equal (@List.length string)) in Hn. rewrite !length_map in Hn.
  rewrite <- Hn. clear Hn.
  apply (for_each_invariant (archive_file st info (iso today) [])
           (fun s => moved (counts s) = count is_renamed (log s)
                     /\ found (counts s)
                        = (moved (counts s) + skipped (counts s)
                           + count is_failed (log s))%nat
                     /\ (found (counts s) <= List.length (visited s))%nat)).
  - intros rest s file (Hm & Hf & Hb).
    destruct (archive_file_shape st info (iso today) [] rest s file)
      as (created & file' & extra & _ & -> & -> & _ & H).
    rewrite !count_app, !count_created, List.length_app by reflexivity.
    simpl.
    destruct H as [(-> & _ & [-> | ->])|[(-> & _ & ->)
                  |(d & _ & _ & [(-> & _ & -> & _)|(-> & _ & -> & _)])]];
      unfold bump_skipped, bump_found, bump_moved, count in *; simpl; lia.
  - rewrite start_visited, start_counts.
    destruct (start_log_counts v (targetFolder st)) as [-> ->].
    simpl. lia.
Qed.

(** X11.  The archive pass never drops, adds or renames a file within its
    folder: the file table keeps its length and order, every file keeps
    its name and extension, and a file that was not renamed keeps its
    path. *)
Theorem archive_keeps_file_table depth st today v :
  let r := moveOldDailyNotes depth st today v in
  map name (files (vault r)) = map name (files v)
  /\ map extension (files (vault r)) = map extension (files v)
  /\ List.length (files (vault r)) = List.length (files v)
  /\ forall f, In f (files v) -> ~ moved_in r f -> In f (files (vault r)).
Proof.
  unfold moveOldDailyNotes.
  destruct (getDateFormatInfo depth st) as [info|]; simpl;
    [|repeat split; auto].
  rewrite app_nil_r.
  pose proof (archive_pass_names st info (iso today) [] (files v)
                (start v (targetFolder st))) as [Hn He].
  rewrite start_visited in Hn, He. simpl in Hn, He.
  split; [exact Hn|]. split; [exact He|]. split.
  - apply (f_equal (@List.length string)) in Hn. rewrite !length_map in Hn.
    exact Hn.
  - unfold moved_in. simpl.
    assert (G : forall todo s f,
              In f (visited s) \/ In f todo ->
              In f (visited (for_each (archive_file st info (iso today) [])
                               todo s))
              \/ exists q, In (Renamed f q)
                             (log (for_each
                                     (archive_file st info (iso today) [])
                                     todo s))).
    { induction todo as [|file rest IH]; intros s f H; simpl.
      - destruct H as [H|[]]. auto.
      - destruct (archive_file_shape st info (iso today) [] rest s file)
          as (created & file' & extra & _ & Ev & El & _ & Hc).
        assert (Hkeep : forall g q, In (Renamed g q)
                          (log (archive_file st info (iso today) [] rest s
                                  file)) ->
                  exists q', In (Renamed g q')
                    (log (for_each (archive_file st info (iso today) [])
                            rest
                            (archive_file st info (iso today) [] rest s
                               file)))).
        { intros g q Hg. exists q. revert Hg.
          generalize (archive_file st info (iso today) [] rest s file).
          clear. induction rest as [|x rest IHr]; intros s0 Hg; simpl; auto.
          apply IHr.
          destruct (archive_file_shape st info (iso today) [] rest s0 x)
            as (c & f' & e & _ & _ & -> & _). apply in_or_app. auto. }
        destruct H as [H|[<-|H]].
        + apply IH. left. rewrite Ev. apply in_or_app. auto.
        + destruct Hc as [(_ & -> & _)|[(_ & -> & _)
                         |(d & _ & _ & [(_ & -> & _)|(Ee & _)])]];
            try (apply IH; left; rewrite Ev; apply in_or_app; right;
                 left; reflexivity).
          right. apply (Hkeep file (dest_path st d file)).
          rewrite El, Ee. apply in_or_app. right. apply in_or_app. right.
          left. reflexivity.
        + apply IH. auto. }
    intros f Hin Hnot.
    destruct (G (files v) (start v (targetFolder st)) f) as [H|H]; auto.
    contradiction.
Qed.

Lemma eligible_some info todayISO file d :
  eligible info todayISO file = Some d ->
  extension file = "md"
  /\ matches (regex info) (name file) = true
  /\ parseDate info (replace ".md" "" (name file)) = Some d
  /\ iso d <> todayISO.
Proof.
  unfold eligible.
  destruct ((extension file =? "md")%string) eqn:Ee; [|discriminate].
  destruct (matches (regex info) (name file)); [|discriminate]. simpl.
  destruct (parseDate info (replace ".md" "" (name file))) as [d'|];
    [|discriminate].
  destruct (iso d' =? todayISO)%string eqn:Ei; [discriminate|].
  intros H; injection H as ->.
  apply String.eqb_eq in Ee. apply String.eqb_neq in Ei. auto.
Qed.

Lemma archive_file_rename_dest st info todayISO aside rest s file f q :
  In (Renamed f q) (log (archive_file st info todayISO aside rest s file)) ->
  In (Renamed f q) (log s)
  \/ (f = file
      /\ exists d, eligible info todayISO file = Some d
                   /\ q = dest_path st d file).
Proof.
  destruct (archive_file_shape st info todayISO aside rest s file)
    as (created & file' & extra & _ & _ & -> & _ & H).
  intros Hin. apply in_app_or in Hin. destruct Hin as [Hin|Hin]; [auto|].
  apply in_app_or in Hin. destruct Hin as [Hin|Hin].
  - apply in_map_iff in Hin. destruct Hin as (p & Hp & _). discriminate.
  - destruct H as [(-> & _)|[(-> & _)
                  |(d & Hd & _ & [(-> & _)|(-> & _)])]];
      simpl in Hin; try contradiction;
      destruct Hin as [Hin|[]]; try discriminate.
    injection Hin as <- <-. right. eauto.
Qed.

Lemma relocate_file_rename_dest st info aside rest s file f q :
  In (Renamed f q) (log (relocate_file st info aside rest s file)) ->
  In (Renamed f q) (log s)
  \/ (f = file
      /\ extension file = "md"
      /\ matches (regex info) (name file) = true
      /\ exists d, parseDate info (replace ".md" "" (name file)) = Some d
                   /\ q = dest_path st d file).
Proof.
  unfold relocate_file.
  destruct ((extension file =? "md")%string) eqn:Ee; [|simpl; auto].
  destruct (matches (regex info) (name file)) eqn:Em; [|simpl; auto].
  cbn [andb].
  destruct (parseDate info (replace ".md" "" (name file))) as [d|] eqn:Hp.
  2:{ simpl. intros H. apply in_app_or in H.
      destruct H as [H|[H|[]]]; auto; discriminate. }
  rewrite destination_eq.
  destruct (ensure_all_shape (visited s ++ file :: rest ++ aside)
              (dest_folders st d) (dirs s, log s)) as (created & -> & _).
  unfold try_rename. cbn [fst snd].
  destruct (exists_path _ _ _); cbn [log]; intros H;
    apply in_app_or in H; destruct H as [H|[H|[]]]; try discriminate;
    try (apply in_app_or in H; destruct H as [H|H]; [auto|];
         apply in_map_iff in H; destruct H as (p & Hp' & _); discriminate).
  injection H as <- <-. right. apply String.eqb_eq in Ee. eauto 8.
Qed.

(** X12.  In both passes every rename is of a markdown file whose name
    matches the pattern and parses to a date, and it goes to the
    destination computed from the target folder, that date and the file
    name: [target/name], or [target/year/month/name] in subfolder mode;
    so every rename lands under the target folder. *)
Theorem renames_go_to_destination depth st today v info f q :
  getDateFormatInfo depth st = Ok info ->
  In (Renamed f q) (events (moveOldDailyNotes depth st today v))
  \/ In (Renamed f q) (events (relocateOldNotes depth st v)) ->
  extension f = "md"
  /\ matches (regex info) (name f) = true
  /\ startsWith q (targetFolder st ++ "/") = true
  /\ exists d, parseDate info (replace ".md" "" (name f)) = Some d
               /\ q = dest_path st d f.
Proof.
  intros Hinfo H.
  assert (G : extension f = "md"
              /\ matches (regex info) (name f) = true
              /\ exists d, parseDate info (replace ".md" "" (name f)) = Some d
                           /\ q = dest_path st d f).
  { unfold moveOldDailyNotes, relocateOldNotes in H. rewrite Hinfo in H.
    simpl in H. destruct H as [H|H]; revert f q H.
    - apply (for_each_invariant (archive_file st info (iso today) [])
               (fun s => forall f q, In (Renamed f q) (log s) ->
                  extension f = "md"
                  /\ matches (regex info) (name f) = true
                  /\ exists d,
                       parseDate info (replace ".md" "" (name f)) = Some d
                       /\ q = dest_path st d f)).
      + intros rest s file IH f q H. apply archive_file_rename_dest in H.
        destruct H as [H|(-> & d & Hd & ->)]; [auto|].
        apply eligible_some in Hd. destruct Hd as (He & Hm & Hp & _).
        eauto.
      + intros f q H. exfalso. eapply start_no_rename. exact H.
    - apply (for_each_invariant
               (relocate_file st info
                  (filter (fun f => negb (in_oldFolder f)) (files v)))
               (fun s => forall f q, In (Renamed f q) (log s) ->
                  extension f = "md"
                  /\ matches (regex info) (name f) = true
                  /\ exists d,
                       parseDate info (replace ".md" "" (name f)) = Some d
                       /\ q = dest_path st d f)).
      + intros rest s file IH f q H. apply relocate_file_rename_dest in H.
        destruct H as [H|(-> & He & Hm & d & Hd & ->)]; eauto.
      + intros f q H. exfalso. eapply start_no_rename. exact H. }
  destruct G as (He & Hm & d & Hd & ->).
  repeat split; auto using dest_path_under_target. eauto.
Qed.

Lemma renames_go_to_destination_witness :
  extension (note "Inbox/" "15-07-2019.md") = "md"
  /\ matches (regex (compile "DD-MM-YYYY"))
       (name (note "Inbox/" "15-07-2019.md")) = true
  /\ startsWith "Archive/2019/07/15-07-2019.md" ("Archive" ++ "/") = true
  /\ exists d,
       parseDate (compile "DD-MM-YYYY")
         (replace ".md" "" (name (note "Inbox/" "15-07-2019.md"))) = Some d
       /\ "Archive/2019/07/15-07-2019.md"
          = dest_path (archive_settings "DD-MM-YYYY" true) d
              (note "Inbox/" "15-07-2019.md").
Proof.
  apply (renames_go_to_destination 1 (archive_settings "DD-MM-YYYY" true)
           {| getFullYear := 2026; getMonth := 10; getDate := 2 |}
           {| files := [note "Inbox/" "15-07-2019.md"]; folders := ["Inbox"] |}).
  - reflexivity.
  - left. vm_compute. auto.
Defined.

Section PassMembers.

Variable body : list TFile -> Pass -> TFile -> Pass.
Variable P : Pass -> Prop.
Variable Q : TFile -> Prop.
Hypothesis body_keeps : forall rest s f, Q f -> P s -> P (body rest s f).

Lemma for_each_members todo :
  Forall Q todo -> forall s, P s -> P (for_each body todo s).
Proof.
  induction 1 as [|f rest Hf _ IH]; intros s Hs; simpl; auto.
Qed.

End PassMembers.

(** X13.  The relocation pass only touches files under the legacy folder
    [Old Daily Notes/]: every rename it issues is of such a file, and
    every other file of the vault is in the resulting file table as it
    was. *)
Theorem relocate_touches_only_old_folder depth st v :
  let r := relocateOldNotes depth st v in
  (forall f q, In (Renamed f q) (events r) ->
               startsWith (path f) "Old Daily Notes/" = true)
  /\ (forall f, In f (files v) ->
                startsWith (path f) "Old Daily Notes/" = false ->
                In f (files (vault r))).
Proof.
  unfold relocateOldNotes.
  destruct (getDateFormatInfo depth st) as [info|]; simpl;
    [|split; [contradiction|auto]].
  split.
  - apply (for_each_members
             (relocate_file st info
                (filter (fun f => negb (in_oldFolder f)) (files v)))
             (fun s => forall f q, In (Renamed f q) (log s) ->
                                   in_oldFolder f = true)
             (fun f => in_oldFolder f = true)).
    + intros rest s file Hq IH f q H. apply relocate_file_renames in H.
      destruct H as [H|[-> _]]; eauto.
    + apply Forall_forall. intros f Hf. apply filter_In in Hf. tauto.
    + intros f q H. exfalso. eapply start_no_rename. exact H.
  - intros f Hin Hout. apply in_or_app. right. apply filter_In.
    split; [exact Hin|]. unfold in_oldFolder. change (oldFolder ++ "/")
      with "Old Daily Notes/". rewrite Hout. reflexivity.
Qed.

Lemma has_in ds p : has ds p = true <-> In p ds.
Proof.
  unfold has. rewrite existsb_exists. split.
  - intros (x & Hx & E). apply String.eqb_eq in E. subst. exact Hx.
  - intros H. exists p. split; [exact H|apply String.eqb_refl].
Qed.

Lemma exists_path_has ds fs p : exists_path ds fs p = false -> has ds p = false.
Proof.
  unfold exists_path. intros H. apply orb_false_iff in H. tauto.
Qed.

(** X14.  The archive pass only adds folders: every folder of the vault
    is kept, and a folder it creates was not among the vault's folders, is
    among them afterwards, and is the target folder or lies under it. *)
Theorem archive_only_adds_folders depth st today v :
  let r := moveOldDailyNotes depth st today v in
  (forall p, has (folders v) p = true -> has (folders (vault r)) p = true)
  /\ (forall p, In (CreatedFolder p) (events r) ->
        has (folders v) p = false
        /\ has (folders (vault r)) p = true
        /\ (p = targetFolder st
            \/ startsWith p (targetFolder st ++ "/") = true)).
Proof.
  unfold moveOldDailyNotes.
  destruct (getDateFormatInfo depth st) as [info|]; simpl;
    [|split; [auto|contradiction]].
  apply (for_each_invariant (archive_file st info (iso today) [])
           (fun s =>
              (forall p, has (folders v) p = true -> has (dirs s) p = true)
              /\ (forall p, In (CreatedFolder p) (log s) ->
                    has (folders v) p = false
                    /\ has (dirs s) p = true
                    /\ (p = targetFolder st
                        \/ startsWith p (targetFolder st ++ "/") = true)))).
  - intros rest s file [Hkeep Hnew].
    destruct (archive_file_shape st info (iso today) [] rest s file)
      as (created & file' & extra & -> & _ & -> & Hc & H).
    split.
    + intros p Hp. rewrite has_app, (Hkeep p Hp). reflexivity.
    + intros p Hin. apply in_app_or in Hin. destruct Hin as [Hin|Hin].
      * destruct (Hnew p Hin) as (H1 & H2 & H3).
        rewrite has_app, H2. auto.
      * apply in_app_or in Hin. destruct Hin as [Hin|Hin].
        -- apply in_map_iff in Hin. destruct Hin as (p' & E & Hp').
           injection E as ->. destruct (Hc p Hp') as (d & _ & Hd & Hex).
           apply exists_path_has in Hex. repeat split.
           ++ destruct (has (folders v) p) eqn:E; [|reflexivity].
              rewrite (Hkeep p E) in Hex. discriminate.
           ++ rewrite has_app. apply orb_true_iff. right.
              apply has_in. exact Hp'.
           ++ right. eapply dest_folders_under_target. exact Hd.
        -- destruct H as [(-> & _)|[(-> & _)
                        |(d & _ & _ & [(-> & _)|(-> & _)])]];
             simpl in Hin; try contradiction;
             destruct Hin as [Hin|[]]; discriminate.
  - unfold start, ensure_folder. cbn [fst snd].
    destruct (exists_path (folders v) (files v) (targetFolder st)) eqn:E;
      cbn [dirs log]; split; auto; try contradiction.
    + intros p Hp. rewrite has_app, Hp. reflexivity.
    + intros p [Hp|[]]. injection Hp as <-.
      apply exists_path_has in E. repeat split; auto.
      rewrite has_snoc, String.eqb_refl. apply orb_true_r.
Qed.

Lemma append_longer s c t : s ++ String c t <> s.
Proof.
  intros H. apply (f_equal String.length) in H. rewrite length_app in H.
  simpl in H. lia.
Qed.

Lemma dest_path_not_folder st d file :
  ~ In (dest_path st d file) (dest_folders st d).
Proof.
  unfold dest_path, dest_folders.
  destruct (useYearMonthSubfolders st); simpl; [|tauto].
  change ("/" ++ ?x) with (String "/" x).
  intros [H|[H|[]]]; symmetry in H.
  - rewrite append_assoc in H. cbn [append] in H.
    apply append_longer in H. exact H.
  - apply append_longer in H. exact H.
Qed.

(** X15.  One iteration of the archive loop does move a note that is a
    markdown file with a matching name and a date other than today's, that
    is outside the target folder, and whose destination path is free: the
    file carries the destination path afterwards, the rename is logged and
    [moved] goes up by one. *)
Theorem archive_moves_eligible_note st info todayISO aside rest s file d :
  eligible info todayISO file = Some d ->
  startsWith (path file) (targetFolder st ++ "/") = false ->
  exists_path (dirs s) (visited s ++ file :: rest ++ aside)
    (dest_path st d file) = false ->
  let s' := archive_file st info todayISO aside rest s file in
  visited s' = (visited s ++ [set_path file (dest_path st d file)])%list
  /\ moved (counts s') = S (moved (counts s))
  /\ In (Renamed file (dest_path st d file)) (log s').
Proof.
  intros He Hu Hfree. unfold archive_file. unfold eligible in He.
  destruct ((extension file =? "md")%string
            && matches (regex info) (name file)); [|discriminate].
  destruct (parseDate info (replace ".md" "" (name file))) as [d0|];
    [|discriminate].
  destruct (negb (iso d0 =? todayISO)%string); [|discriminate].
  injection He as ->. rewrite destination_eq.
  destruct (ensure_all_shape (visited s ++ file :: rest ++ aside)
              (dest_folders st d) (dirs s, log s)) as (created & -> & Hc).
  cbn [fst snd]. rewrite Hu. cbn [negb]. unfold try_rename.
  assert (Hex : exists_path (dirs s ++ created)
                  (visited s ++ file :: rest ++ aside) (dest_path st d file)
                = false).
  { unfold exists_path in *. rewrite has_app.
    apply orb_false_iff in Hfree. destruct Hfree as [-> ->].
    rewrite orb_false_r. simpl.
    destruct (has created (dest_path st d file)) eqn:E; [|reflexivity].
    apply has_in in E. destruct (Hc _ E) as [Hin _].
    exfalso. eapply dest_path_not_folder. exact Hin. }
  rewrite Hex. cbn [visited counts log bump_moved moved bump_found].
  repeat split. apply in_or_app. right. left. reflexivity.
Qed.

Lemma archive_moves_eligible_note_witness :
  let file := note "Inbox/" "15-07-2019.md" in
  let s := {| visited := []; dirs := ["Inbox"; "Archive"];
              counts := no_counts; log := [] |} in
  let s' := archive_file (archive_settings "DD-MM-YYYY" false)
              (compile "DD-MM-YYYY") "2026-11-02" [] [] s file in
  visited s' = [set_path file "Archive/15-07-2019.md"]
  /\ moved (counts s') = 1%nat
  /\ In (Renamed file "Archive/15-07-2019.md") (log s').
Proof.
  apply (archive_moves_eligible_note (archive_settings "DD-MM-YYYY" false)
           (compile "DD-MM-YYYY") "2026-11-02" [] []
           {| visited := []; dirs := ["Inbox"; "Archive"];
              counts := no_counts; log := [] |}
           (note "Inbox/" "15-07-2019.md")
           {| getFullYear := 2019; getMonth := 6; getDate := 15 |});
    reflexivity.
Defined.

Lemma toString_inj a b : toString a = toString b -> a = b.
Proof.
  unfold toString. intros H.
  assert (G : forall z, NilZero.int_of_string
                          (NilZero.string_of_int (Z.to_int z))
                        = Some (Z.to_int z)).
  { intros z. apply NilZero.isi; destruct z; simpl; try discriminate;
      intros E; injection E as E;
      exact (DecimalPos.Unsigned.to_uint_nonnil _ E). }
  apply (f_equal NilZero.int_of_string) in H. rewrite !G in H.
  injection H as H. apply (f_equal Z.of_int) in H.
  rewrite !DecimalZ.of_to in H. exact H.
Qed.

Lemma pad_two_digits n :
  0 <= n <= 99 -> padStart0 2 (toString n) = two_digits n.
Proof.
  intros H.
  assert (A : 0 <= n / 10 <= 9) by (Z.div_mod_to_equations; lia).
  assert (B : 0 <= n mod 10 <= 9) by (Z.div_mod_to_equations; lia).
  unfold two_digits.
  replace n with (10 * (n / 10) + n mod 10) at 1
    by (Z.div_mod_to_equations; lia).
  generalize dependent (n mod 10). generalize dependent (n / 10).
  intros a Ha b Hb.
  assert (Ca : a = 0 \/ a = 1 \/ a = 2 \/ a = 3 \/ a = 4 \/ a = 5 \/ a = 6
               \/ a = 7 \/ a = 8 \/ a = 9) by lia.
  assert (Cb : b = 0 \/ b = 1 \/ b = 2 \/ b = 3 \/ b = 4 \/ b = 5 \/ b = 6
               \/ b = 7 \/ b = 8 \/ b = 9) by lia.
  clear Ha Hb.
  repeat (destruct Ca as [->|Ca]);
    repeat (destruct Cb as [->|Cb]); subst; reflexivity.
Qed.

Lemma two_digits_inj n n' :
  0 <= n <= 99 -> 0 <= n' <= 99 -> two_digits n = two_digits n' -> n = n'.
Proof.
  intros H H' E. apply (f_equal parseInt) in E.
  rewrite !parseInt_two_digits in E by assumption. congruence.
Qed.

Lemma append_same_length_suffix a : forall b s s',
  String.length s = String.length s' -> a ++ s = b ++ s' ->
  a = b /\ s = s'.
Proof.
  induction a as [|x a IH]; intros [|y b] s s' L E; simpl in E.
  - auto.
  - subst s. simpl in L. rewrite length_app in L. lia.
  - subst s'. simpl in L. rewrite length_app in L. lia.
  - injection E as -> E. destruct (IH b s s' L E) as [-> ->]. auto.
Qed.

(** X16.  The today test of the archive pass is exact: for a date the
    parser returned, the printed date equals the printed date of today
    (a day of some month, in any year) exactly when year, month and day
    are the same; so a note is skipped as today's only when it is dated
    today. *)
Theorem today_test_is_exact info s d today :
  parseDate info s = Some d ->
  0 <= getMonth today <= 11 -> 1 <= getDate today <= 31 ->
  ((iso d =? iso today)%string = true <-> ymd d = ymd today).
Proof.
  intros Hp Hm Hd. rewrite String.eqb_eq.
  split; [|apply same_day_same_iso].
  destruct (parseDate_sound info s d Hp) as (_ & Hdm & Hdd).
  pose proof (daysInMonth_max (getFullYear d) (getMonth d + 1 - 1)).
  unfold iso, ymd.
  rewrite !pad_two_digits by lia.
  change ("-" ++ ?x) with (String "-" x). unfold two_digits.
  cbn [append]. intros E.
  apply append_same_length_suffix in E; [|reflexivity].
  destruct E as [Ey E]. apply toString_inj in Ey.
  injection E as E1 E2 E3 E4.
  assert (Em : two_digits (getMonth d + 1) = two_digits (getMonth today + 1))
    by (unfold two_digits; congruence).
  assert (Ed : two_digits (getDate d) = two_digits (getDate today))
    by (unfold two_digits; congruence).
  apply two_digits_inj in Em; [|lia|lia].
  apply two_digits_inj in Ed; [|lia|lia].
  congruence.
Qed.

Lemma today_test_is_exact_witness :
  (iso {| getFullYear := 2019; getMonth := 6; getDate := 15 |}
   =? iso {| getFullYear := 2019; getMonth := 6; getDate := 15 |})%string
  = true
  <-> ymd {| getFullYear := 2019; getMonth := 6; getDate := 15 |}
      = ymd {| getFullYear := 2019; getMonth := 6; getDate := 15 |}.
Proof.
  apply (today_test_is_exact (compile "DD-MM-YYYY") "15-07-2019"
           {| getFullYear := 2019; getMonth := 6; getDate := 15 |}
           {| getFullYear := 2019; getMonth := 6; getDate := 15 |});
    [reflexivity|simpl; lia|simpl; lia].
Defined.

(** X17.  The number the relocation pass reports is the number of renames
    it did: a rename that failed, a name without a valid date and a file
    that does not match are not counted. *)
Theorem relocate_counts_renames depth st v :
  moved (tally (relocateOldNotes depth st v))
  = count is_renamed (events (relocateOldNotes depth st v)).
Proof.
  unfold relocateOldNotes.
  destruct (getDateFormatInfo depth st) as [info|]; simpl; [|reflexivity].
  apply (for_each_invariant
           (relocate_file st info
              (filter (fun f => negb (in_oldFolder f)) (files v)))
           (fun s => moved (counts s) = count is_renamed (log s))).
  - intros rest s file IH. unfold relocate_file.
    destruct ((extension file =? "md")%string
              && matches (regex info) (name file)); [|exact IH].
    destruct (parseDate info (replace ".md" "" (name file))) as [d|].
    2:{ cbn [pass_over counts log]. rewrite count_app, IH.
        unfold count. simpl. lia. }
    rewrite destination_eq.
    destruct (ensure_all_shape
                (visited s ++ file
                 :: rest ++ filter (fun f => negb (in_oldFolder f)) (files v))
                (dest_folders st d) (dirs s, log s)) as (created & -> & _).
    unfold try_rename. cbn [fst snd].
    destruct (exists_path _ _ _); cbn [counts log];
      rewrite !count_app, count_created by reflexivity;
      unfold bump_moved, count in *; simpl; lia.
  - rewrite start_counts.
    destruct (start_log_counts v (targetFolder st)) as [-> _]. reflexivity.
Qed.

(** X18.  [parseDate] strips the extension itself: for a stem without a
    dot it returns the same result whether it is given the stem or the
    file name with [.md]. *)
Theorem parseDate_strips_extension info stem :
  all (no_char ".") stem = true ->
  parseDate info (stem ++ ".md") = parseDate info stem.
Proof.
  intros H. unfold parseDate.
  rewrite (replace_suffix stem H), (replace_no_dot stem H). reflexivity.
Qed.

Lemma parseDate_strips_extension_witness :
  parseDate (compile "DD-MM-YYYY") ("15-07-2019" ++ ".md")
  = parseDate (compile "DD-MM-YYYY") "15-07-2019".
Proof.
  apply (parseDate_strips_extension (compile "DD-MM-YYYY") "15-07-2019").
  reflexivity.
Defined.

(** ** C8: errors of the compiler *)

(** The settings the plugin holds always have a non-empty string as date
    format: [onload] replaces anything else, and the text field's handler
    stores a string, the default for an empty one. *)
Lemma reachable_format st :
  reachable st -> exists f, dateFormat st = SStr f /\ nonEmpty f = true.
Proof.
  induction 1 as [data|st value _ _|st value _ IH|st value _ IH|st value _ IH];
    cbn [onChange_dateFormat onChange_targetFolder set_dateFormat dateFormat
         onChange_showSummaryNotification onChange_useYearMonthSubfolders];
    auto.
  - destruct (onload_validates data) as [Hv _].
    destruct (dateFormat (onload data)) as [| | | |f|]; try discriminate.
    exists f. split; [reflexivity|]. unfold nonEmpty. cbn in Hv.
    destruct (f =? "")%string; [discriminate|reflexivity].
  - destruct (nonEmpty value) eqn:E; eauto.
Qed.


